(** * Contacts API: the authentication routes

    A shallow embedding of [src/routes/auth.py], [src/repository/users.py],
    [src/services/email.py] and the [User] table of [src/database/models.py],
    with the properties of the authentication and credential life cycle.

    Conventions.
    - The users table is a list of rows; an ORM object is the position of its
      row together with the column values read when it was loaded.
    - A coroutine of the routes is a function from the state of the request
      (the table and the queue of background tasks) to an outcome and the
      state it leaves; an exception keeps whatever was committed before it.
    - [src/services/auth.py] is not part of the sources at hand: the routes
      are written over its interface, and a model of it after the
      specification is given further down. *)

From Stdlib Require Import ZArith NArith String Ascii Decimal DecimalString DecimalN.
From stdpp Require Import base option list strings.

Local Open Scope string_scope.

(** ** The Python side: exceptions and outcomes *)

Module python.

(** The exceptions the routes meet: [fastapi.HTTPException], and the
    [AttributeError] of an attribute access on [None]. *)
Inductive Exception : Type :=
| HTTPException (status_code : Z) (detail : string)
| AttributeError (msg : string).

Inductive Result (A : Type) : Type :=
| Ok (a : A)
| Raise (e : Exception).
Arguments Ok {A} a.
Arguments Raise {A} e.

Definition NoneType_has_no_attribute (name : string) : Exception :=
  AttributeError ("'NoneType' object has no attribute '" +:+ name +:+ "'").

#[global] Instance Exception_eq_dec : EqDecision Exception.
Proof. solve_decision. Defined.

End python.
Import python.

(** ** [src/database/models.py]: the [users] table *)

Module User.
Record t : Type := mk {
  id : Z;
  username : string;
  email : string;
  password : string;
  avatar : option string;
  created_at : N;
  refresh_token : option string;
  confirmed : bool
}.

(** Attribute assignments of the repository. *)
Definition set_refresh_token (v : option string) (u : t) : t :=
  mk (id u) (username u) (email u) (password u) (avatar u) (created_at u)
     v (confirmed u).
Definition set_confirmed (v : bool) (u : t) : t :=
  mk (id u) (username u) (email u) (password u) (avatar u) (created_at u)
     (refresh_token u) v.
Definition set_password (v : string) (u : t) : t :=
  mk (id u) (username u) (email u) v (avatar u) (created_at u)
     (refresh_token u) (confirmed u).
Definition set_avatar (v : option string) (u : t) : t :=
  mk (id u) (username u) (email u) (password u) v (created_at u)
     (refresh_token u) (confirmed u).
End User.

(** ** [src/schemas.py] and the request forms of the routes *)

Module UserModel.
Record t : Type := mk { username : string; email : string; password : string }.
End UserModel.

Module RequestEmail.
Record t : Type := mk { email : string }.
End RequestEmail.

Module TokenModel.
Record t : Type :=
  mk { access_token : string; refresh_token : string; token_type : string }.
End TokenModel.

(** [fastapi.security.OAuth2PasswordRequestForm]: the login form. *)
Module OAuth2PasswordRequestForm.
Record t : Type := mk { username : string; password : string }.
End OAuth2PasswordRequestForm.

(** ** What a request reads from its surroundings *)

(** The clock ([datetime.utcnow], in seconds) and the entropy of the
    password hasher, as read while the request is served. *)
Record Env : Type := { utcnow : N; urandom : N }.

(** ** Background tasks *)

Inductive EmailFn : Type := fn_send_verification_email | fn_send_reset_email.

(** [background_tasks.add_task(f, email, username, host)] *)
Record Task : Type :=
  { task_fn : EmailFn; task_email : string; task_username : string; task_host : string }.

(** ** The state of a request and the monad of the coroutines *)

Record World : Type := { users : list User.t; background_tasks : list Task }.

Definition M (A : Type) : Type := World → Result A * World.

#[global] Instance M_ret : MRet M := λ A a w, (Ok a, w).
#[global] Instance M_bind : MBind M := λ A B f m w,
  match m w with
  | (Ok a, w') => f a w'
  | (Raise e, w') => (Raise e, w')
  end.

Definition raise {A} (e : Exception) : M A := λ w, (Raise e, w).

(** [try: body except Exception as e: handler] *)
Definition try_except {A} (body : M A) (handler : Exception → M A) : M A := λ w,
  match body w with
  | (Ok a, w') => (Ok a, w')
  | (Raise e, w') => handler e w'
  end.

Definition get_users : M (list User.t) := λ w, (Ok (users w), w).
Definition put_users (us : list User.t) : M unit := λ w,
  (Ok tt, {| users := us; background_tasks := background_tasks w |}).
Definition add_task (f : EmailFn) (email username host : string) : M unit := λ w,
  (Ok tt, {| users := users w;
             background_tasks := background_tasks w ++ [Build_Task f email username host] |}).

(** A series of requests served one after the other. *)
Fixpoint run_all {A} (calls : list (M A)) (w : World) : list (Result A) * World :=
  match calls with
  | [] => ([], w)
  | call :: rest =>
    let '(r, w') := call w in
    let '(rs, w'') := run_all rest w' in
    (r :: rs, w'')
  end.

(** An ORM object: the position of the row and its columns as loaded. *)
Definition UserObj : Type := nat * User.t.

(** [user.name] where [user] may be [None]. *)
Definition getattr {A} (name : string) (proj : User.t → A) (user : option UserObj) : M A :=
  match user with
  | Some (_, u) => mret (proj u)
  | None => raise (NoneType_has_no_attribute name)
  end.

(** [user.name = v] followed by [db.commit()], where [user] may be [None]:
    the row the object stands for is rewritten in place. *)
Definition setattr (name : string) (upd : User.t → User.t) (user : option UserObj) : M unit :=
  match user with
  | Some (i, _) => us ← get_users; put_users (alter upd i us)
  | None => raise (NoneType_has_no_attribute name)
  end.

(** An outcome computed outside the state (a helper that raises). *)
Definition lift {A} (r : Result A) : M A := λ w, (r, w).

(** ** [src/services/auth.py]: the interface the routes call

    [auth_service] itself is not among the sources; these are the methods
    the routes and the e-mail service call on it.  Every token is made from
    [data = {"sub": email}] and the clock; the decoders read the clock to
    judge expiry and either return the subject or raise. *)

Module services_auth.
Class AuthService : Type := {
  get_password_hash : N → string → string;
  verify_password : string → string → bool;
  create_access_token : string → N → string;
  create_refresh_token : string → N → string;
  create_email_token : string → N → string;
  decode_refresh_token : string → N → Result string;
  get_email_from_token : string → N → Result string
}.
End services_auth.
Import services_auth.

(** ** [src/repository/users.py] *)

Module repository_users.

(** [db.query(User).filter(User.email == email).first()]: the first row
    with that e-mail, compared as stored. *)
Definition first_by_email (email : string) (us : list User.t) : option UserObj :=
  list_find (λ u, User.email u = email) us.

Definition get_user_by_email (email : string) : M (option UserObj) :=
  us ← get_users; mret (first_by_email email us).

(** The key the table gives to the next row. *)
Definition next_id (us : list User.t) : Z :=
  (foldr Z.max 0 (User.id <$> us) + 1)%Z.

(** [get_image email] is [Gravatar(email).get_image()], [None] when that
    raises.  The columns the constructor leaves out take their defaults:
    no refresh token, [confirmed = False], [created_at = now]. *)
Definition create_user (get_image : string → option string) (env : Env)
    (body : UserModel.t) : M User.t :=
  let avatar := get_image (UserModel.email body) in
  us ← get_users;
  let new_user :=
    User.mk (next_id us) (UserModel.username body) (UserModel.email body)
            (UserModel.password body) avatar (utcnow env) None false in
  _ ← put_users (us ++ [new_user]);
  mret new_user.

Definition update_token (user : option UserObj) (refresh_token : option string) : M unit :=
  setattr "refresh_token" (User.set_refresh_token refresh_token) user.

(** What is returned is the object that was assigned to: the row as it is
    after the assignment. *)
Definition update_avatar (email : string) (url : string) : M (option UserObj) :=
  user ← get_user_by_email email;
  _ ← setattr "avatar" (User.set_avatar (Some url)) user;
  get_user_by_email email.

Definition confirmed_email (email : string) : M unit :=
  user ← get_user_by_email email;
  setattr "confirmed" (User.set_confirmed true) user.

Definition update_password (user : option UserObj) (hashed_password : string) : M unit :=
  setattr "password" (User.set_password hashed_password) user.

End repository_users.

(** ** [src/services/email.py] *)

Module services_email.

(** What is handed to [FastMail.send_message]: the message and the name of
    its template. *)
Record MessageSchema : Type := {
  subject : string;
  recipients : list string;
  body_host : string;
  body_username : string;
  body_token : string;
  template_name : string
}.

Section email.
Context `{!AuthService}.

(** [now] is the clock when the task runs.  A connection error is printed
    and swallowed, so the caller never sees a failure. *)
Definition send_verification_email (now : N) (email username host : string) : MessageSchema :=
  let token_verification := create_email_token email now in
  {| subject := "Confirm your email ";
     recipients := [email];
     body_host := host; body_username := username; body_token := token_verification;
     template_name := "email_verify_template.html" |}.

Definition send_reset_email (now : N) (email username host : string) : MessageSchema :=
  let token_verification := create_email_token email now in
  {| subject := "Reset password ";
     recipients := [email];
     body_host := host; body_username := username; body_token := token_verification;
     template_name := "email_reset_template.html" |}.

(** Running a queued background task. *)
Definition run_task (now : N) (t : Task) : MessageSchema :=
  match task_fn t with
  | fn_send_verification_email =>
      send_verification_email now (task_email t) (task_username t) (task_host t)
  | fn_send_reset_email =>
      send_reset_email now (task_email t) (task_username t) (task_host t)
  end.

End email.
End services_email.

(** ** [src/routes/auth.py] *)

Module routes_auth.

Record SignupResponse : Type := { user : User.t; detail : string }.
Record Message : Type := { message : string }.
Record TemplateResponse : Type := {
  template : string; ctx_host : string; ctx_username : string;
  ctx_token : string; ctx_email : string
}.

(** The routes as the functions are written: the framework validates the
    request before it calls them and serialises what they return after. *)
Section routes.
Context `{!AuthService}.
(** [Gravatar(email).get_image()], and [str(e)] of an exception. *)
Variable get_image : string → option string.
Variable str : Exception → string.

Definition signup (env : Env) (body : UserModel.t) (base_url : string) : M SignupResponse :=
  exist_user ← repository_users.get_user_by_email (UserModel.email body);
  match exist_user with
  | Some _ => raise (HTTPException 409 "Account already exists")
  | None =>
    let body := UserModel.mk (UserModel.username body) (UserModel.email body)
                  (get_password_hash (urandom env) (UserModel.password body)) in
    new_user ← repository_users.create_user get_image env body;
    _ ← add_task fn_send_verification_email
          (User.email new_user) (User.username new_user) base_url;
    mret {| user := new_user;
            detail := "User successfully created. Check your email for confirmation." |}
  end.

Definition login (env : Env) (body : OAuth2PasswordRequestForm.t) : M TokenModel.t :=
  user ← repository_users.get_user_by_email (OAuth2PasswordRequestForm.username body);
  match user with
  | None => raise (HTTPException 401 "Invalid email")
  | Some (_, u) =>
    if negb (User.confirmed u) then raise (HTTPException 401 "Email not confirmed") else
    if negb (verify_password (OAuth2PasswordRequestForm.password body) (User.password u))
    then raise (HTTPException 401 "Invalid password") else
    let access_token := create_access_token (User.email u) (utcnow env) in
    let refresh_token := create_refresh_token (User.email u) (utcnow env) in
    _ ← repository_users.update_token user (Some refresh_token);
    mret (TokenModel.mk access_token refresh_token "bearer")
  end.

Definition refresh_token (env : Env) (credentials : string) : M TokenModel.t :=
  let token := credentials in
  email ← lift (decode_refresh_token token (utcnow env));
  user ← repository_users.get_user_by_email email;
  stored ← getattr "refresh_token" User.refresh_token user;
  if bool_decide (stored ≠ Some token) then
    _ ← repository_users.update_token user None;
    raise (HTTPException 401 "Invalid refresh token")
  else
  let access_token := create_access_token email (utcnow env) in
  let refresh_token := create_refresh_token email (utcnow env) in
  _ ← repository_users.update_token user (Some refresh_token);
  mret (TokenModel.mk access_token refresh_token "bearer").

Definition confirmed_email (env : Env) (token : string) : M Message :=
  email ← lift (get_email_from_token token (utcnow env));
  user ← repository_users.get_user_by_email email;
  match user with
  | None => raise (HTTPException 400 "Verification error")
  | Some (_, u) =>
    if User.confirmed u then mret {| message := "Your email is already confirmed" |} else
    _ ← repository_users.confirmed_email email;
    mret {| message := "Email confirmed" |}
  end.

Definition verify_by_email (body : RequestEmail.t) (base_url : string) : M Message :=
  user ← repository_users.get_user_by_email (RequestEmail.email body);
  is_confirmed ← getattr "confirmed" User.confirmed user;
  if (is_confirmed : bool) then mret {| message := "Your email is already confirmed" |} else
  _ ← match user with
      | Some (_, u) =>
          add_task fn_send_verification_email (User.email u) (User.username u) base_url
      | None => mret tt
      end;
  mret {| message := "Check your email for confirmation." |}.

Definition forgot_password (body : RequestEmail.t) (base_url : string) : M Message :=
  user ← repository_users.get_user_by_email (RequestEmail.email body);
  _ ← match user with
      | Some (_, u) =>
          add_task fn_send_reset_email (User.email u) (User.username u) base_url
      | None => mret tt
      end;
  mret {| message := "Check your email for reset password." |}.

Definition unexpected_error (e : Exception) : Exception :=
  HTTPException 500
    ("An unexpected error occurred. Report this message to support: " +:+ str e).

(** [token] is [request.path_params.get("token")]; the path of the route
    has the parameter, so it is always there. *)
Definition reset_password_template (env : Env) (token : string) (base_url : string)
    : M TemplateResponse :=
  try_except
    (email ← lift (get_email_from_token token (utcnow env));
     user ← repository_users.get_user_by_email email;
     match user with
     | None => raise (HTTPException 400 "Invalid token")
     | Some (_, u) =>
       mret {| template := "reset_password.html"; ctx_host := base_url;
               ctx_username := User.username u; ctx_token := token;
               ctx_email := email |}
     end)
    (λ e, raise (unexpected_error e)).

Definition reset_password (env : Env) (token : string)
    (new_password confirm_password : string) : M Message :=
  if bool_decide (new_password ≠ confirm_password)
  then raise (HTTPException 422 "Unprocessable Entity") else
  _ ← try_except
        (email ← lift (get_email_from_token token (utcnow env));
         let hashed_password := get_password_hash (urandom env) new_password in
         user ← repository_users.get_user_by_email email;
         repository_users.update_password user hashed_password)
        (λ e, raise (unexpected_error e));
  mret {| message := "Password reset successfully" |}.

End routes.
End routes_auth.

(** ** Strings: fields separated by a character, numbers in decimal *)

Module text.

(** The part before the first [c] and the part after it. *)
Fixpoint split_at (c : ascii) (s : string) : option (string * string) :=
  match s with
  | EmptyString => None
  | String a s' =>
    if Ascii.eqb a c then Some (EmptyString, s')
    else match split_at c s' with
         | Some (l, r) => Some (String a l, r)
         | None => None
         end
  end.

Fixpoint free_of (c : ascii) (s : string) : bool :=
  match s with
  | EmptyString => true
  | String a s' => negb (Ascii.eqb a c) && free_of c s'
  end.

Definition digit (c : ascii) : bool :=
  (N_of_ascii "0" <=? N_of_ascii c)%N && (N_of_ascii c <=? N_of_ascii "9")%N.

Definition dec (n : N) : string := NilEmpty.string_of_uint (N.to_uint n).
Definition undec (s : string) : option N :=
  if bool_decide (s = EmptyString) then None
  else N.of_uint <$> NilEmpty.uint_of_string s.

End text.

(** ** The Signed Token Codec *)

Module codec.
Import text.

(** Modelled from the spec: the purposes, the claims and the parse errors of
    the Signed Token Codec (§3, §4.2), absent with [src/services/auth.py]. *)
Inductive Purpose : Type := access | refresh | email_confirm | password_reset.

#[global] Instance Purpose_eq_dec : EqDecision Purpose.
Proof. solve_decision. Defined.

Record Claims : Type := {
  subject : string;
  issued_at : N;
  expires_at : N;
  purpose : Purpose
}.

Inductive Error : Type := InvalidSignature | Malformed | Expired | WrongPurpose.

Inductive Parsed : Type := Valid (c : Claims) | Invalid (e : Error).

Definition tag (p : Purpose) : string :=
  match p with
  | access => "access"
  | refresh => "refresh"
  | email_confirm => "email_confirm"
  | password_reset => "password_reset"
  end.

Definition untag (s : string) : option Purpose :=
  if bool_decide (s = "access") then Some access
  else if bool_decide (s = "refresh") then Some refresh
  else if bool_decide (s = "email_confirm") then Some email_confirm
  else if bool_decide (s = "password_reset") then Some password_reset
  else None.

(** Modelled from the spec: the claims payload of [src/services/auth.py],
    which is not among the sources.  The payload lists purpose, issue time
    and expiry, each closed by a dot, then the subject. *)
Definition encode_claims (c : Claims) : string :=
  tag (purpose c) +:+ "." +:+ dec (issued_at c) +:+ "." +:+ dec (expires_at c)
    +:+ "." +:+ subject c.

(** Modelled from the spec: the structural decoding of the claims, absent
    with [src/services/auth.py]; it reads back what [encode_claims] writes
    and fails on anything else. *)
Definition decode_claims (s : string) : option Claims :=
  '(t, s1) ← split_at "." s;
  p ← untag t;
  '(i, s2) ← split_at "." s1;
  iat ← undec i;
  '(e, sub) ← split_at "." s2;
  exp ← undec e;
  Some {| subject := sub; issued_at := iat; expires_at := exp; purpose := p |}.

(** Modelled from the spec: the signature of [src/services/auth.py], a keyed
    digest of header and payload under the symmetric secret.  The digest is
    a stand-in (a polynomial checksum keyed on both sides); the model
    recomputes and compares it, and claims nothing about forging. *)
Definition mac (key msg : string) : N :=
  foldl (λ h a, (h * 257 + N_of_ascii a + 1) mod 4294967291)%N 0%N
        (list_ascii_of_string (key +:+ msg +:+ key)).

Definition header : string := "HS256".

Definition signature (secret hdr payload : string) : string :=
  dec (mac secret (hdr +:+ "." +:+ payload)).

(** Modelled from the spec: the claims made at issue time (§3), absent with
    [src/services/auth.py]: subject, time of issue, expiry after the time to
    live, purpose. *)
Definition claims_at (sub : string) (p : Purpose) (now ttl : N) : Claims :=
  {| subject := sub; issued_at := now; expires_at := now + ttl; purpose := p |}.

(** Modelled from the spec: the signed encoding of §4.2, absent with
    [src/services/auth.py]: header, signature over header and payload, and
    payload, separated by dots. *)
Definition sign (secret : string) (c : Claims) : string :=
  let payload := encode_claims c in
  header +:+ "." +:+ signature secret header payload +:+ "." +:+ payload.

(** Modelled from the spec: [issue] of the Signed Token Codec (§4.2), absent
    with [src/services/auth.py]: the claims of the moment, serialised and
    signed. *)
Definition issue (sub : string) (p : Purpose) (now ttl : N) (secret : string) : string :=
  sign secret (claims_at sub p now ttl).

(** Modelled from the spec: [parse] of the Signed Token Codec (§4.2), absent
    with [src/services/auth.py].  The checks come in the order the spec
    gives: signature, structure of the claims, expiry against the clock
    (a token is expired once the clock is past [expires_at]), purpose.
    [expected] is the purpose the caller expects, [None] when the caller
    states none. *)
Definition parse (secret : string) (now : N) (expected : option Purpose)
    (token : string) : Parsed :=
  match split_at "." token with
  | None => Invalid InvalidSignature
  | Some (hdr, rest) =>
    match split_at "." rest with
    | None => Invalid InvalidSignature
    | Some (sig, payload) =>
      if bool_decide (sig ≠ signature secret hdr payload) then Invalid InvalidSignature else
      match decode_claims payload with
      | None => Invalid Malformed
      | Some c =>
        if (expires_at c <? now)%N then Invalid Expired else
        match expected with
        | Some p => if bool_decide (purpose c = p) then Valid c else Invalid WrongPurpose
        | None => Valid c
        end
      end
    end
  end.

End codec.

(** ** The Credential Hasher *)

Module hasher.
Import text.

(** Modelled from the spec: [hash] of the Credential Hasher (§4.1), absent
    with [src/services/auth.py].  The digest carries its salt
    before a dollar sign; [verify] recomputes under that salt and compares,
    and a digest it cannot take apart fails verification.  The digest
    function is the stand-in of the codec, not a password hash. *)
Definition hash (salt : N) (plaintext : string) : string :=
  dec salt +:+ "$" +:+ dec (codec.mac (dec salt) plaintext).

(** Modelled from the spec: [verify] of the Credential Hasher (§4.1), absent
    with [src/services/auth.py]. *)
Definition verify (plaintext digest : string) : bool :=
  match split_at "$" digest with
  | Some (salt, h) => bool_decide (dec (codec.mac salt plaintext) = h)
  | None => false
  end.

End hasher.

(** ** A model of [auth_service] after the specification *)

Module spec_model.
Import codec.

Record Config : Type := {
  secret_key : string;
  access_ttl : N;
  refresh_ttl : N;
  email_ttl : N
}.

Definition subject_or_raise (e : Exception) (r : Parsed) : Result string :=
  match r with
  | Valid c => Ok (subject c)
  | Invalid _ => Raise e
  end.

(** Modelled from the spec: the object [auth_service] of
    [src/services/auth.py], which is not among the sources, over the codec
    and the hasher above.  What the spec leaves open is taken from the
    callers and the tests: [create_email_token] is the one issuer behind both
    the confirmation and the reset e-mail and gets the purpose
    [email_confirm]; [get_email_from_token] is the one parser behind
    confirm-email and reset-password and states no purpose
    ([tests/test_route_auth.py] presents the stored refresh token to both and
    expects success); the exceptions of the two decoders are the ones the
    tests expect. *)
Definition auth_service (cfg : Config) : AuthService := {|
  get_password_hash := hasher.hash;
  verify_password := hasher.verify;
  create_access_token sub now := issue sub access now (access_ttl cfg) (secret_key cfg);
  create_refresh_token sub now := issue sub refresh now (refresh_ttl cfg) (secret_key cfg);
  create_email_token sub now := issue sub email_confirm now (email_ttl cfg) (secret_key cfg);
  decode_refresh_token token now :=
    subject_or_raise (HTTPException 401 "Could not validate credentials")
      (parse (secret_key cfg) now (Some refresh) token);
  get_email_from_token token now :=
    subject_or_raise (HTTPException 422 "Invalid token for email verification")
      (parse (secret_key cfg) now None token)
|}.

(** Minutes for access, days for refresh, hours for e-mail tokens. *)
Definition config : Config :=
  {| secret_key := "secret_key"; access_ttl := 900; refresh_ttl := 604800;
     email_ttl := 86400 |}.

(** [libgravatar] builds the address of the image from the e-mail; the
    model keeps the address abstract. *)
Definition get_image (email : string) : option string :=
  Some ("https://www.gravatar.com/avatar/" +:+ email).

(** [str(e)]: Starlette prints an [HTTPException] as status and detail. *)
Definition str (e : Exception) : string :=
  match e with
  | HTTPException status detail => text.dec (Z.to_N status) +:+ ": " +:+ detail
  | AttributeError msg => msg
  end.

End spec_model.

(** ** A run of the service: register, confirm, log in, refresh *)

Module scenario.
Import spec_model.

Definition svc : AuthService := auth_service config.

Definition at_time (t : N) : Env := {| utcnow := t; urandom := 7 |}.

Definition alice : UserModel.t := UserModel.mk "alice" "a@x.com" "secret1".
Definition alice_login : OAuth2PasswordRequestForm.t :=
  OAuth2PasswordRequestForm.mk "a@x.com" "secret1".

Definition empty : World := {| users := []; background_tasks := [] |}.

(** After [signup]: one unconfirmed row and one queued e-mail. *)
Definition registered : World :=
  snd (@routes_auth.signup svc get_image (at_time 100) alice "http://host/" empty).

Definition verification_task : Task :=
  Build_Task fn_send_verification_email "a@x.com" "alice" "http://host/".
Definition reset_task : Task :=
  Build_Task fn_send_reset_email "a@x.com" "alice" "http://host/".

(** The tokens the two e-mails carry when the tasks run at 101. *)
Definition confirmation_token : string :=
  services_email.body_token (@services_email.run_task svc 101 verification_task).
Definition reset_token : string :=
  services_email.body_token (@services_email.run_task svc 101 reset_task).

Definition confirmed : World :=
  snd (@routes_auth.confirmed_email svc (at_time 102) confirmation_token registered).

Definition logged_in : World :=
  snd (@routes_auth.login svc (at_time 103) alice_login confirmed).

Definition first_refresh_token : string :=
  @create_refresh_token svc "a@x.com" 103.


End scenario.


(** ** The failure kinds of the specification, as the routes raise them *)

Module taxonomy.

(** [signup], when the e-mail is taken. *)
Definition DuplicateEmail : Exception := HTTPException 409 "Account already exists".

(** [login]: the three refusals. *)
Definition UnknownUser : Exception := HTTPException 401 "Invalid email".
Definition EmailNotConfirmed : Exception := HTTPException 401 "Email not confirmed".
Definition BadPassword : Exception := HTTPException 401 "Invalid password".

(** [refresh_token], when the presented token is not the stored one. *)
Definition InvalidRefreshToken : Exception := HTTPException 401 "Invalid refresh token".

(** [confirmed_email], when the subject of the token is no user. *)
Definition VerificationError : Exception := HTTPException 400 "Verification error".

(** [reset_password]: the two fields differ. *)
Definition PasswordMismatch : Exception := HTTPException 422 "Unprocessable Entity".

End taxonomy.

(** Two refresh tokens of one subject issued at different readings of the
    clock are different strings. *)
Definition refresh_issue_injective `{!AuthService} : Prop :=
  ∀ (sub : string) (t1 t2 : N),
    create_refresh_token sub t1 = create_refresh_token sub t2 → t1 = t2.

(** The acknowledgments of the routes. *)
Definition already_confirmed : routes_auth.Message :=
  {| routes_auth.message := "Your email is already confirmed" |}.
Definition email_confirmed : routes_auth.Message :=
  {| routes_auth.message := "Email confirmed" |}.
Definition password_reset_done : routes_auth.Message :=
  {| routes_auth.message := "Password reset successfully" |}.

(** ** Runs of the service *)

(** A request to one of the routes. *)
Inductive Request : Type :=
| Signup (body : UserModel.t) (base_url : string)
| Login (body : OAuth2PasswordRequestForm.t)
| RefreshToken (credentials : string)
| ConfirmedEmail (token : string)
| VerifyByEmail (body : RequestEmail.t) (base_url : string)
| ForgotPassword (body : RequestEmail.t) (base_url : string)
| ResetPassword (token new_password confirm_password : string).

Section runs.
Context `{!AuthService}.
Variable get_image : string → option string.
Variable str : Exception → string.

(** The state a request leaves, whatever it answers. *)
Definition serve (env : Env) (r : Request) (w : World) : World :=
  match r with
  | Signup body base_url => snd (routes_auth.signup get_image env body base_url w)
  | Login body => snd (routes_auth.login env body w)
  | RefreshToken credentials => snd (routes_auth.refresh_token env credentials w)
  | ConfirmedEmail token => snd (routes_auth.confirmed_email env token w)
  | VerifyByEmail body base_url => snd (routes_auth.verify_by_email body base_url w)
  | ForgotPassword body base_url => snd (routes_auth.forgot_password body base_url w)
  | ResetPassword token new_password confirm_password =>
      snd (routes_auth.reset_password str env token new_password confirm_password w)
  end.

Fixpoint serve_all (rs : list (Env * Request)) (w : World) : World :=
  match rs with
  | [] => w
  | (env, r) :: rest => serve_all rest (serve env r w)
  end.

(** What a request served at [now] can do to the table. *)
Inductive Effect (now : N) (us : list User.t) : list User.t → Prop :=
| effect_none : Effect now us us
| effect_insert (x : User.t) :
    repository_users.first_by_email (User.email x) us = None →
    User.refresh_token x = None →
    Effect now us (us ++ [x])
| effect_clear (e : string) (i : nat) (u : User.t) :
    repository_users.first_by_email e us = Some (i, u) →
    Effect now us (alter (User.set_refresh_token None) i us)
| effect_rotate (e : string) (i : nat) (u : User.t) :
    repository_users.first_by_email e us = Some (i, u) →
    Effect now us
      (alter (User.set_refresh_token (Some (create_refresh_token e now))) i us)
| effect_column (e : string) (i : nat) (u : User.t) (upd : User.t → User.t) :
    repository_users.first_by_email e us = Some (i, u) →
    (∀ x, User.email (upd x) = User.email x) →
    (∀ x, User.refresh_token (upd x) = User.refresh_token x) →
    Effect now us (alter upd i us).

(** The stored refresh token of [e], if any, was not issued before [t]. *)
Definition not_issued_before (e : string) (t : N) (us : list User.t) : Prop :=
  ∀ i u, repository_users.first_by_email e us = Some (i, u) →
    ∀ t_old : N, (t_old < t)%N →
      User.refresh_token u ≠ Some (create_refresh_token e t_old).

End runs.

(** ** [src/database/models.py]: the [contacts] table *)

Module Contact.
Record t : Type := mk {
  id : Z;
  first_name : string;
  last_name : string;
  email : string;
  phone : option string;
  birthday : N;
  description : option string;
  favorites : bool;
  created_at : N;
  updated_at : N;
  user_id : option Z
}.

Definition set_favorites (v : bool) (c : t) : t :=
  mk (id c) (first_name c) (last_name c) (email c) (phone c) (birthday c)
     (description c) v (created_at c) (updated_at c) (user_id c).
Definition set_updated_at (v : N) (c : t) : t :=
  mk (id c) (first_name c) (last_name c) (email c) (phone c) (birthday c)
     (description c) (favorites c) (created_at c) v (user_id c).

#[global] Instance eq_dec : EqDecision t.
Proof. solve_decision. Defined.
End Contact.

(** [schemas.ContactModel]; dates are seconds on the clock.
    [birthday_tzinfo] says whether the birthday of the request names a time
    zone (as a date ending in "Z" does): the request then holds an aware
    [datetime], which never compares equal to the naive one of the column. *)
Module ContactModel.
Record t : Type := mk {
  first_name : string;
  last_name : string;
  email : string;
  phone : string;
  birthday : N;
  birthday_tzinfo : bool;
  description : string;
  favorites : bool;
  created_at : N;
  updated_at : N
}.
End ContactModel.

(** What a function of the contacts can end in: an exception of the routes,
    or the [IntegrityError] of the database when a commit would give two
    rows of [contacts] the same e-mail ([unique=True]). *)
Inductive Raised : Type :=
| Http (e : Exception)
| IntegrityError.

Inductive Outcome (A : Type) : Type :=
| Returns (a : A)
| Raises (r : Raised).
Arguments Returns {A} a.
Arguments Raises {A} r.

Module models.

Definition family : list string := ["Кохана"; "Батько"; "Мама"].

(** The listener of [before_insert] on [Contact]. *)
Definition updated_favorites (target : Contact.t) : Contact.t :=
  if bool_decide (Contact.first_name target ∈ family)
  then Contact.set_favorites true target
  else target.

End models.

(** ** [src/repository/contacts.py]: the functions that work by key

    The state is the [contacts] table.  [alloc] is the key the database
    gives to a row it inserts.  A commit that the database refuses leaves
    the table as it was. *)

Module repository_contacts.

Definition ContactObj : Type := nat * Contact.t.

(** [.filter(and_(Contact.user_id == user.id, Contact.id == contact_id)).first()] *)
Definition get_contact_by_id (contact_id : Z) (user : User.t) (cs : list Contact.t)
    : option ContactObj :=
  list_find (λ c, Contact.user_id c = Some (User.id user) ∧ Contact.id c = contact_id) cs.

(** [Contact(user_id=user.id, **body.model_dump())], the listener of
    [before_insert], the insert and [db.refresh]. *)
Definition create (alloc : list Contact.t → Z) (body : ContactModel.t) (user : User.t)
    (cs : list Contact.t) : Outcome Contact.t * list Contact.t :=
  let contact :=
    models.updated_favorites
      (Contact.mk (alloc cs) (ContactModel.first_name body) (ContactModel.last_name body)
         (ContactModel.email body) (Some (ContactModel.phone body))
         (ContactModel.birthday body) (Some (ContactModel.description body))
         (ContactModel.favorites body) (ContactModel.created_at body)
         (ContactModel.updated_at body) (Some (User.id user))) in
  if bool_decide (Contact.email contact ∈ Contact.email <$> cs)
  then (Raises IntegrityError, cs)
  else (Returns contact, (cs ++ [contact])%list).

(** The seven assignments of [update]. *)
Definition assign (body : ContactModel.t) (c : Contact.t) : Contact.t :=
  Contact.mk (Contact.id c) (ContactModel.first_name body) (ContactModel.last_name body)
    (ContactModel.email body) (Some (ContactModel.phone body))
    (ContactModel.birthday body) (Some (ContactModel.description body))
    (ContactModel.favorites body) (Contact.created_at c) (Contact.updated_at c)
    (Contact.user_id c).

(** [db.commit()] after the assignments to row [i]: nothing is written when
    no assigned value differs from the one loaded, which takes a birthday
    without time zone; a new e-mail that another row has is refused;
    otherwise the row is written and the write stamps [updated_at]
    ([onupdate=func.now()]). *)
Definition update (now : N) (contact_id : Z) (body : ContactModel.t) (user : User.t)
    (cs : list Contact.t) : Outcome (option Contact.t) * list Contact.t :=
  match get_contact_by_id contact_id user cs with
  | Some (i, c) =>
    let contact := assign body c in
    if bool_decide (contact = c ∧ ContactModel.birthday_tzinfo body = false)
    then (Returns (Some c), cs)
    else if bool_decide (Contact.email contact ≠ Contact.email c ∧
                         Contact.email contact ∈ Contact.email <$> cs)
    then (Raises IntegrityError, cs)
    else
      let contact := Contact.set_updated_at now contact in
      (Returns (Some contact), <[i := contact]> cs)
  | None => (Returns None, cs)
  end.

Definition remove (contact_id : Z) (user : User.t) (cs : list Contact.t)
    : Outcome (option Contact.t) * list Contact.t :=
  match get_contact_by_id contact_id user cs with
  | Some (i, c) => (Returns (Some c), delete i cs)
  | None => (Returns None, cs)
  end.

End repository_contacts.

(** ** [src/routes/contacts.py]: the routes that work by key

    [current_user] is what [auth_service.get_current_user] resolved. *)

Module routes_contacts.

Definition not_found : Raised := Http (HTTPException 404 "Not Found").

(** [if contact is None: raise HTTPException(404)], after a call of the
    repository that may itself have raised. *)
Definition or_not_found (r : Outcome (option Contact.t) * list Contact.t)
    : Outcome Contact.t * list Contact.t :=
  match r with
  | (Returns None, cs) => (Raises not_found, cs)
  | (Returns (Some contact), cs) => (Returns contact, cs)
  | (Raises e, cs) => (Raises e, cs)
  end.

Definition get_contact (contact_id : Z) (current_user : User.t) (cs : list Contact.t)
    : Outcome Contact.t * list Contact.t :=
  or_not_found
    (Returns (snd <$> repository_contacts.get_contact_by_id contact_id current_user cs), cs).

Definition create_contact (alloc : list Contact.t → Z) (body : ContactModel.t)
    (current_user : User.t) (cs : list Contact.t) : Outcome Contact.t * list Contact.t :=
  repository_contacts.create alloc body current_user cs.

Definition update_contact (now : N) (body : ContactModel.t) (contact_id : Z)
    (current_user : User.t) (cs : list Contact.t) : Outcome Contact.t * list Contact.t :=
  or_not_found (repository_contacts.update now contact_id body current_user cs).

Definition remove_contact (contact_id : Z) (current_user : User.t) (cs : list Contact.t)
    : Outcome Contact.t * list Contact.t :=
  or_not_found (repository_contacts.remove contact_id current_user cs).

End routes_contacts.

(** ** Vocabulary for the properties of the routes *)

(** A password verifies against the hash made of it, under every salt. *)
Definition hasher_sound `{!AuthService} : Prop :=
  ∀ (salt : N) (plaintext : string),
    verify_password plaintext (get_password_hash salt plaintext) = true.

(** The columns of a user no route assigns. *)
Definition identity (u : User.t) : Z * string * string * option string * N :=
  (User.id u, User.username u, User.email u, User.avatar u, User.created_at u).

(** The assignments the routes make to a row of [users]. *)
Inductive Write : Type :=
| WriteToken (v : option string)
| WriteConfirmed
| WritePassword (hashed : string).

Definition write (wr : Write) : User.t → User.t :=
  match wr with
  | WriteToken v => User.set_refresh_token v
  | WriteConfirmed => User.set_confirmed true
  | WritePassword hashed => User.set_password hashed
  end.

(** Which route makes which assignment. *)
Definition writes_of (r : Request) (wr : Write) : Prop :=
  match r, wr with
  | Login _, WriteToken (Some _) => True
  | RefreshToken _, WriteToken _ => True
  | ConfirmedEmail _, WriteConfirmed => True
  | ResetPassword _ _ _, WritePassword _ => True
  | _, _ => False
  end.

(** What serving a request does to the table: nothing, one insertion of an
    unconfirmed row under a free e-mail and the next key, or one assignment
    to one row. *)
Inductive Step (allowed : Write → Prop) (us : list User.t) : list User.t → Prop :=
| step_none : Step allowed us us
| step_insert (x : User.t) :
    repository_users.first_by_email (User.email x) us = None →
    User.id x = repository_users.next_id us →
    User.confirmed x = false →
    User.refresh_token x = None →
    Step allowed us (us ++ [x])
| step_write (wr : Write) (i : nat) :
    allowed wr → i < length us →
    Step allowed us (alter (write wr) i us).

Definition is_reset_password (r : Request) : bool :=
  match r with
  | ResetPassword _ _ _ => true
  | _ => false
  end.

(** ** Vocabulary for the contacts *)

Definition owned_by (user : User.t) (c : Contact.t) : Prop :=
  Contact.user_id c = Some (User.id user).

#[global] Instance owned_by_dec (user : User.t) (c : Contact.t) : Decision (owned_by user c).
Proof. unfold owned_by. apply _. Defined.

(** The key of an inserted row is not the key of a row in the table. *)
Definition alloc_fresh (alloc : list Contact.t → Z) : Prop :=
  ∀ cs : list Contact.t, alloc cs ∉ Contact.id <$> cs.

(** A key allocation: one past the largest key in use. *)
Definition next_contact_id (cs : list Contact.t) : Z :=
  (foldr Z.max 0 (Contact.id <$> cs) + 1)%Z.

Module contacts_scenario.

Definition alice : User.t :=
  User.mk 1 "alice" "a@x.com" "hash" None 100 None true.
Definition bob : User.t :=
  User.mk 2 "bobby" "b@x.com" "hash" None 100 None true.

Definition mum : ContactModel.t :=
  ContactModel.mk "Мама" "Petrenko" "mum@x.com" "+380980000000" 500 true "family" false
    1000 1000.
Definition mum_moved : ContactModel.t :=
  ContactModel.mk "Мама" "Petrenko" "mum@y.com" "+380980000009" 500 true "family" false
    1000 1000.
Definition carl : ContactModel.t :=
  ContactModel.mk "Carl" "Jones" "carl@x.com" "+380980000001" 600 true "work" false
    1001 1001.
Definition dora : ContactModel.t :=
  ContactModel.mk "Dora" "Smith" "dora@x.com" "+380980000002" 700 true "gym" true
    1002 1002.

(** The row Alice's mother gets on the empty table. *)
Definition mum_row : Contact.t :=
  Contact.mk 1 "Мама" "Petrenko" "mum@x.com" (Some "+380980000000") 500 (Some "family")
    true 1000 1000 (Some 1%Z).

(** Alice adds her mother, Bob adds Carl. *)
Definition table : list Contact.t :=
  snd (repository_contacts.create next_contact_id carl bob
         (snd (repository_contacts.create next_contact_id mum alice []))).

End contacts_scenario.

(** Two runs of requests for the examples: one from the empty table, one
    that goes on from Alice's confirmation. *)
Module runs_scenario.

Definition from_empty : list (Env * Request) :=
  [(scenario.at_time 100, Signup scenario.alice "http://host/");
   (scenario.at_time 101, Signup (UserModel.mk "bobby" "b@x.com" "secret9") "http://host/");
   (scenario.at_time 102, ConfirmedEmail scenario.confirmation_token);
   (scenario.at_time 103, Signup (UserModel.mk "alice2" "a@x.com" "secret2") "http://host/");
   (scenario.at_time 104, Login scenario.alice_login)].

Definition after_confirmation : list (Env * Request) :=
  [(scenario.at_time 103, Login scenario.alice_login);
   (scenario.at_time 104, RefreshToken scenario.first_refresh_token);
   (scenario.at_time 105, RefreshToken scenario.first_refresh_token);
   (scenario.at_time 106, ConfirmedEmail scenario.confirmation_token);
   (scenario.at_time 107, VerifyByEmail (RequestEmail.mk "a@x.com") "http://host/");
   (scenario.at_time 108, ForgotPassword (RequestEmail.mk "a@x.com") "http://host/")].

End runs_scenario.

(** * Properties *)

(** ** Fields and numbers *)

Lemma split_at_app (c : ascii) (a b : string) :
  text.free_of c a = true →
  text.split_at c (a +:+ String c EmptyString +:+ b) = Some (a, b).
Proof.
  change (String c EmptyString +:+ b) with (String c b).
  induction a as [|x a IH]; simpl.
  - intros _. by rewrite Ascii.eqb_refl.
  - intros [Hx Ha]%andb_true_iff. apply negb_true_iff in Hx.
    by rewrite Hx, (IH Ha).
Qed.

Lemma free_of_string_of_uint (c : ascii) (d : uint) :
  text.digit c = false → text.free_of c (NilEmpty.string_of_uint d) = true.
Proof.
  intros Hc.
  assert (Hne : ∀ k, text.digit k = true → Ascii.eqb k c = false).
  { intros k Hk. destruct (Ascii.eqb_spec k c) as [->|]; congruence. }
  induction d as [|d IH|d IH|d IH|d IH|d IH|d IH|d IH|d IH|d IH|d IH];
    cbn [NilEmpty.string_of_uint text.free_of]; [done|..];
    rewrite IH, Hne; done.
Qed.

Lemma free_of_dec (c : ascii) (n : N) :
  text.digit c = false → text.free_of c (text.dec n) = true.
Proof. apply free_of_string_of_uint. Qed.

Lemma dec_nonempty (n : N) : text.dec n ≠ EmptyString.
Proof.
  unfold text.dec. intros He.
  assert (Hn : N.to_uint n = Nil).
  { pose proof (NilEmpty.usu (N.to_uint n)) as Hu. rewrite He in Hu.
    simpl in Hu. congruence. }
  destruct n as [|p]; [discriminate|].
  simpl in Hn. pose proof (DecimalPos.Unsigned.of_to p) as Hp.
  rewrite Hn in Hp. discriminate.
Qed.

Lemma undec_dec (n : N) : text.undec (text.dec n) = Some n.
Proof.
  unfold text.undec. rewrite bool_decide_eq_false_2 by apply dec_nonempty.
  unfold text.dec. rewrite NilEmpty.usu. simpl.
  by rewrite DecimalN.Unsigned.of_to.
Qed.

Lemma dec_inj (n m : N) : text.dec n = text.dec m → n = m.
Proof.
  intros H. apply (f_equal text.undec) in H. rewrite !undec_dec in H. congruence.
Qed.

(** ** The codec: what is issued parses back *)

Lemma untag_tag (p : codec.Purpose) : codec.untag (codec.tag p) = Some p.
Proof. by destruct p. Qed.

Lemma free_of_tag (p : codec.Purpose) : text.free_of "." (codec.tag p) = true.
Proof. by destruct p. Qed.

Lemma decode_encode_claims (c : codec.Claims) :
  codec.decode_claims (codec.encode_claims c) = Some c.
Proof.
  destruct c as [sub iat exp p]. unfold codec.decode_claims, codec.encode_claims.
  cbn [codec.purpose codec.issued_at codec.expires_at codec.subject].
  rewrite (split_at_app "." (codec.tag p)) by apply free_of_tag.
  cbn [mbind option_bind]. rewrite untag_tag. cbn [mbind option_bind].
  rewrite (split_at_app "." (text.dec iat)) by by apply free_of_dec.
  cbn [mbind option_bind]. rewrite undec_dec. cbn [mbind option_bind].
  rewrite (split_at_app "." (text.dec exp)) by by apply free_of_dec.
  cbn [mbind option_bind]. by rewrite undec_dec.
Qed.

Lemma encode_claims_inj (c1 c2 : codec.Claims) :
  codec.encode_claims c1 = codec.encode_claims c2 → c1 = c2.
Proof.
  intros H. apply (f_equal codec.decode_claims) in H.
  rewrite !decode_encode_claims in H. congruence.
Qed.

(** The outcome of parsing a token this codec signed, under the same
    secret: only expiry and purpose are left to fail. *)
Lemma parse_sign (secret : string) (now : N) (expected : option codec.Purpose)
    (c : codec.Claims) :
  codec.parse secret now expected (codec.sign secret c) =
    if (codec.expires_at c <? now)%N then codec.Invalid codec.Expired
    else match expected with
         | Some p => if bool_decide (codec.purpose c = p) then codec.Valid c
                     else codec.Invalid codec.WrongPurpose
         | None => codec.Valid c
         end.
Proof.
  unfold codec.parse, codec.sign.
  rewrite (split_at_app "." codec.header) by done.
  unfold codec.signature at 1.
  rewrite (split_at_app "." (text.dec _)) by by apply free_of_dec.
  rewrite bool_decide_eq_false_2 by (intros Hne; by apply Hne).
  by rewrite decode_encode_claims.
Qed.

Lemma sign_inj (secret : string) (c1 c2 : codec.Claims) :
  codec.sign secret c1 = codec.sign secret c2 → c1 = c2.
Proof.
  intros H.
  pose proof (parse_sign secret 0 None c1) as H1.
  pose proof (parse_sign secret 0 None c2) as H2.
  rewrite H in H1. rewrite H1 in H2.
  destruct (codec.expires_at c1 <? 0)%N eqn:E1;
    [apply N.ltb_lt in E1; lia|].
  destruct (codec.expires_at c2 <? 0)%N eqn:E2;
    [apply N.ltb_lt in E2; lia|].
  congruence.
Qed.

(** Tokens of one subject and purpose issued at two clock readings differ. *)
Lemma issue_inj_time (secret sub : string) (p : codec.Purpose) (ttl t1 t2 : N) :
  codec.issue sub p t1 ttl secret = codec.issue sub p t2 ttl secret → t1 = t2.
Proof.
  unfold codec.issue. intros H%sign_inj.
  by apply (f_equal codec.issued_at) in H.
Qed.

(** ** The hasher: a password verifies against its own digest *)

Lemma verify_hash (salt : N) (plaintext : string) :
  hasher.verify plaintext (hasher.hash salt plaintext) = true.
Proof.
  unfold hasher.verify, hasher.hash.
  rewrite (split_at_app "$" (text.dec salt)) by by apply free_of_dec.
  by apply bool_decide_eq_true_2.
Qed.

(** ** The repository *)

Lemma first_by_email_email (e : string) (us : list User.t) (i : nat) (u : User.t) :
  repository_users.first_by_email e us = Some (i, u) → User.email u = e.
Proof. unfold repository_users.first_by_email. by intros (_ & ? & _)%list_find_Some. Qed.

Lemma first_by_email_lookup (e : string) (us : list User.t) (i : nat) (u : User.t) :
  repository_users.first_by_email e us = Some (i, u) → us !! i = Some u.
Proof. unfold repository_users.first_by_email. by intros (? & _)%list_find_Some. Qed.

(** Rewriting a column other than the e-mail of the row a query found
    leaves the query on that row. *)
Lemma first_by_email_alter (e : string) (us : list User.t) (i : nat) (u : User.t)
    (upd : User.t → User.t) :
  (∀ x, User.email (upd x) = User.email x) →
  repository_users.first_by_email e us = Some (i, u) →
  repository_users.first_by_email e (alter upd i us) = Some (i, upd u).
Proof.
  unfold repository_users.first_by_email.
  intros Hupd (Hi & He & Hleast)%list_find_Some.
  apply list_find_Some. split_and!.
  - by rewrite list_lookup_alter_eq, Hi.
  - by rewrite Hupd.
  - intros j y Hj Hlt. rewrite list_lookup_alter_ne in Hj by lia. eauto.
Qed.

Lemma first_by_email_snoc (e : string) (us : list User.t) (x : User.t) :
  repository_users.first_by_email e us = None → User.email x = e →
  repository_users.first_by_email e (us ++ [x]) = Some (length us, x).
Proof.
  unfold repository_users.first_by_email. intros Hnone He.
  rewrite list_find_app_r by done. simpl.
  rewrite decide_True by done. done.
Qed.

Lemma get_user_by_email_run (e : string) (w : World) :
  repository_users.get_user_by_email e w =
    (Ok (repository_users.first_by_email e (users w)), w).
Proof. done. Qed.

Lemma setattr_run (name : string) (upd : User.t → User.t) (i : nat) (u : User.t)
    (w : World) :
  setattr name upd (Some (i, u)) w =
    (Ok tt, {| users := alter upd i (users w); background_tasks := background_tasks w |}).
Proof. done. Qed.

Lemma setattr_None_run (name : string) (upd : User.t → User.t) (w : World) :
  setattr name upd None w = (Raise (NoneType_has_no_attribute name), w).
Proof. done. Qed.

(** Unfolding a route down to the queries and the decoders. *)
Ltac route :=
  unfold routes_auth.signup, routes_auth.login, routes_auth.refresh_token,
    routes_auth.confirmed_email, routes_auth.verify_by_email,
    routes_auth.forgot_password, routes_auth.reset_password,
    repository_users.confirmed_email, repository_users.update_token,
    repository_users.update_password, repository_users.create_user,
    repository_users.get_user_by_email, setattr, getattr, add_task,
    get_users, put_users, try_except, lift, raise;
  unfold mbind, M_bind, mret, M_ret;
  cbv beta iota zeta.

(** Using a fact about a query or a decoder, then going on. *)
Tactic Notation "given" constr(H) := rewrite H; cbv beta iota zeta.

(** ** Refresh *)

Section refresh.
Context `{!AuthService}.

(** A presented token that decodes to a user whose stored token is another
    one: the stored token is cleared and the call is refused. *)
Lemma refresh_token_mismatch (env : Env) (token email : string) (i : nat)
    (u : User.t) (w : World) :
  decode_refresh_token token (utcnow env) = Ok email →
  repository_users.first_by_email email (users w) = Some (i, u) →
  User.refresh_token u ≠ Some token →
  routes_auth.refresh_token env token w =
    (Raise (HTTPException 401 "Invalid refresh token"),
     {| users := alter (User.set_refresh_token None) i (users w);
        background_tasks := background_tasks w |}).
Proof.
  intros Hdec Hfind Hne. route. given Hdec. given Hfind.
  by rewrite bool_decide_eq_true_2 by done.
Qed.

Lemma refresh_token_match (env : Env) (token email : string) (i : nat)
    (u : User.t) (w : World) :
  decode_refresh_token token (utcnow env) = Ok email →
  repository_users.first_by_email email (users w) = Some (i, u) →
  User.refresh_token u = Some token →
  routes_auth.refresh_token env token w =
    (Ok (TokenModel.mk (create_access_token email (utcnow env))
           (create_refresh_token email (utcnow env)) "bearer"),
     {| users := alter (User.set_refresh_token
                          (Some (create_refresh_token email (utcnow env)))) i (users w);
        background_tasks := background_tasks w |}).
Proof.
  intros Hdec Hfind Heq. route. given Hdec. given Hfind.
  by rewrite bool_decide_eq_false_2 by (intros Hn; by apply Hn).
Qed.

(** A call of [refresh_token] that returns went through the match. *)
Lemma refresh_token_Ok_inv (env : Env) (token : string) (w w' : World)
    (resp : TokenModel.t) :
  routes_auth.refresh_token env token w = (Ok resp, w') →
  ∃ email i u,
    decode_refresh_token token (utcnow env) = Ok email ∧
    repository_users.first_by_email email (users w) = Some (i, u) ∧
    User.refresh_token u = Some token.
Proof.
  route. destruct (decode_refresh_token token (utcnow env)) as [email|] eqn:Hdec;
    [|discriminate].
  destruct (repository_users.first_by_email email (users w)) as [[i u]|] eqn:Hfind;
    [|discriminate].
  destruct (decide (User.refresh_token u = Some token)) as [Heq|Hne].
  - eauto 6.
  - rewrite bool_decide_eq_true_2 by done. discriminate.
Qed.

Lemma login_Ok_inv (env : Env) (body : OAuth2PasswordRequestForm.t) (w w' : World)
    (resp : TokenModel.t) :
  routes_auth.login env body w = (Ok resp, w') →
  ∃ i u,
    repository_users.first_by_email (OAuth2PasswordRequestForm.username body) (users w)
      = Some (i, u) ∧
    resp = TokenModel.mk (create_access_token (User.email u) (utcnow env))
             (create_refresh_token (User.email u) (utcnow env)) "bearer" ∧
    w' = {| users := alter (User.set_refresh_token
                              (Some (create_refresh_token (User.email u) (utcnow env))))
                       i (users w);
            background_tasks := background_tasks w |}.
Proof.
  route.
  destruct (repository_users.first_by_email _ (users w)) as [[i u]|] eqn:Hfind;
    [|discriminate].
  destruct (User.confirmed u); [|discriminate]. cbn [negb].
  destruct (verify_password _ _); [|discriminate]. cbn [negb].
  intros [= <- <-]. eauto.
Qed.

End refresh.

(** The model of the specification issues refresh tokens that tell their
    time of issue apart. *)
Lemma spec_model_refresh_issue_injective (cfg : spec_model.Config) :
  @refresh_issue_injective (spec_model.auth_service cfg).
Proof. intros sub t1 t2. apply issue_inj_time. Qed.

(** C2. Whenever the presented token decodes as a refresh token of a user
    whose stored refresh token is a different string (or none), [refresh_token]
    sets the stored token to null and fails with InvalidRefreshToken. *)
Theorem refresh_mismatch_clears_stored_token `{!AuthService} (env : Env)
    (token email : string) (i : nat) (u : User.t) (w : World) :
  decode_refresh_token token (utcnow env) = Ok email →
  repository_users.first_by_email email (users w) = Some (i, u) →
  User.refresh_token u ≠ Some token →
  ∃ (w' : World) (u' : User.t),
    routes_auth.refresh_token env token w = (Raise taxonomy.InvalidRefreshToken, w') ∧
    repository_users.first_by_email email (users w') = Some (i, u') ∧
    User.refresh_token u' = None.
Proof.
  intros Hdec Hfind Hne.
  eexists _, (User.set_refresh_token None u). split_and!.
  - by apply (refresh_token_mismatch env token email i u).
  - by apply (first_by_email_alter email (users w) i u).
  - done.
Qed.

(** Alice is logged in with the token of 103 and presents a refresh token
    issued at 50: her stored token is cleared. *)
Lemma refresh_mismatch_clears_stored_token_witness :
  ∃ (w' : World) (u' : User.t),
    @routes_auth.refresh_token scenario.svc (scenario.at_time 104)
      (@create_refresh_token scenario.svc "a@x.com" 50) scenario.logged_in
      = (Raise taxonomy.InvalidRefreshToken, w') ∧
    repository_users.first_by_email "a@x.com" (users w') = Some (0, u') ∧
    User.refresh_token u' = None.
Proof.
  eapply (@refresh_mismatch_clears_stored_token scenario.svc (scenario.at_time 104)
            (@create_refresh_token scenario.svc "a@x.com" 50) "a@x.com" 0).
  - vm_compute. reflexivity.
  - vm_compute. reflexivity.
  - vm_compute. discriminate.
Defined.




(** ** Login *)

(** C4. [login] fails with UnknownUser when no row has the e-mail; else with
    EmailNotConfirmed when the row is not confirmed, whatever the password
    and whatever its verification would say; else with BadPassword when the
    password does not verify; else it succeeds and returns an access token, a
    refresh token and the token type. *)
Theorem login_outcomes `{!AuthService} (env : Env) (body : OAuth2PasswordRequestForm.t)
    (w : World) :
  let found :=
    repository_users.first_by_email (OAuth2PasswordRequestForm.username body) (users w) in
  let verified (u : User.t) :=
    verify_password (OAuth2PasswordRequestForm.password body) (User.password u) in
  (found = None →
     routes_auth.login env body w = (Raise taxonomy.UnknownUser, w)) ∧
  (∀ i u, found = Some (i, u) → User.confirmed u = false →
     routes_auth.login env body w = (Raise taxonomy.EmailNotConfirmed, w)) ∧
  (∀ i u, found = Some (i, u) → User.confirmed u = true → verified u = false →
     routes_auth.login env body w = (Raise taxonomy.BadPassword, w)) ∧
  (∀ i u, found = Some (i, u) → User.confirmed u = true → verified u = true →
     ∃ w' : World,
       routes_auth.login env body w =
         (Ok {| TokenModel.access_token := create_access_token (User.email u) (utcnow env);
                TokenModel.refresh_token := create_refresh_token (User.email u) (utcnow env);
                TokenModel.token_type := "bearer" |}, w')).
Proof.
  intros found verified. subst found verified. split_and!.
  - intros Hfind. route. by given Hfind.
  - intros i u Hfind Hconf. route. given Hfind. by rewrite Hconf.
  - intros i u Hfind Hconf Hver. route. given Hfind. by rewrite Hconf, Hver.
  - intros i u Hfind Hconf Hver. route. given Hfind. rewrite Hconf, Hver.
    cbv beta iota zeta delta [negb]. eauto.
Qed.

(** The four outcomes on the run of the service: a stranger; Alice before
    she confirmed, with her right password; Alice with a wrong password;
    Alice with her password. *)
Lemma login_outcomes_witness :
  @routes_auth.login scenario.svc (scenario.at_time 103)
     (OAuth2PasswordRequestForm.mk "b@x.com" "secret1") scenario.confirmed
    = (Raise taxonomy.UnknownUser, scenario.confirmed) ∧
  @routes_auth.login scenario.svc (scenario.at_time 103)
     scenario.alice_login scenario.registered
    = (Raise taxonomy.EmailNotConfirmed, scenario.registered) ∧
  @routes_auth.login scenario.svc (scenario.at_time 103)
     (OAuth2PasswordRequestForm.mk "a@x.com" "secret2") scenario.confirmed
    = (Raise taxonomy.BadPassword, scenario.confirmed) ∧
  ∃ w' : World,
    @routes_auth.login scenario.svc (scenario.at_time 103)
       scenario.alice_login scenario.confirmed
      = (Ok {| TokenModel.access_token := @create_access_token scenario.svc "a@x.com" 103;
               TokenModel.refresh_token := @create_refresh_token scenario.svc "a@x.com" 103;
               TokenModel.token_type := "bearer" |}, w').
Proof.
  split_and!.
  - apply (@login_outcomes scenario.svc). vm_compute. reflexivity.
  - eapply (proj1 (proj2 (@login_outcomes scenario.svc _ _ _))); vm_compute; reflexivity.
  - eapply (proj1 (proj2 (proj2 (@login_outcomes scenario.svc _ _ _))));
      vm_compute; reflexivity.
  - eapply (proj2 (proj2 (proj2 (@login_outcomes scenario.svc (scenario.at_time 103)
              scenario.alice_login scenario.confirmed))) 0
             (User.set_confirmed true
                (User.mk 1 "alice" "a@x.com" (hasher.hash 7 "secret1")
                   (Some "https://www.gravatar.com/avatar/a@x.com") 100 None false)));
      vm_compute; reflexivity.
Defined.

(** ** Register *)

(** C5. [signup] with the e-mail of an existing row, confirmed or not, fails
    with DuplicateEmail and leaves the table as it was; any other [signup]
    adds one row, whose password column holds the hash of the submitted
    password and whose [confirmed] is false. *)
Theorem signup_outcomes `{!AuthService} (get_image : string → option string)
    (env : Env) (body : UserModel.t) (base_url : string) (w : World) :
  let found := repository_users.first_by_email (UserModel.email body) (users w) in
  (∀ i u, found = Some (i, u) →
     routes_auth.signup get_image env body base_url w = (Raise taxonomy.DuplicateEmail, w)) ∧
  (found = None →
     ∃ (resp : routes_auth.SignupResponse) (w' : World),
       routes_auth.signup get_image env body base_url w = (Ok resp, w') ∧
       users w' = (users w ++ [routes_auth.user resp])%list ∧
       repository_users.first_by_email (UserModel.email body) (users w')
         = Some (length (users w), routes_auth.user resp) ∧
       User.email (routes_auth.user resp) = UserModel.email body ∧
       User.password (routes_auth.user resp)
         = get_password_hash (urandom env) (UserModel.password body) ∧
       User.confirmed (routes_auth.user resp) = false).
Proof.
  intros found. subst found. split.
  - intros i u Hfind. route. by given Hfind.
  - intros Hfind. route. given Hfind.
    eexists _, _. split; [reflexivity|]. cbn [users routes_auth.user].
    split_and!; try done.
    by apply first_by_email_snoc.
Qed.

(** Alice registers on the empty table; registering her e-mail again, with
    another name and password, is refused and changes nothing. *)
Lemma signup_outcomes_witness :
  @routes_auth.signup scenario.svc spec_model.get_image (scenario.at_time 200)
     (UserModel.mk "alice2" "a@x.com" "secret2") "http://host/" scenario.confirmed
    = (Raise taxonomy.DuplicateEmail, scenario.confirmed) ∧
  ∃ (resp : routes_auth.SignupResponse) (w' : World),
    @routes_auth.signup scenario.svc spec_model.get_image (scenario.at_time 100)
       scenario.alice "http://host/" scenario.empty = (Ok resp, w') ∧
    users w' = [routes_auth.user resp] ∧
    repository_users.first_by_email "a@x.com" (users w') = Some (0, routes_auth.user resp) ∧
    User.email (routes_auth.user resp) = "a@x.com" ∧
    User.password (routes_auth.user resp) = hasher.hash 7 "secret1" ∧
    User.confirmed (routes_auth.user resp) = false.
Proof.
  split.
  - eapply (proj1 (@signup_outcomes scenario.svc spec_model.get_image _ _ _ _)).
    vm_compute. reflexivity.
  - apply (proj2 (@signup_outcomes scenario.svc spec_model.get_image
                    (scenario.at_time 100) scenario.alice "http://host/" scenario.empty)).
    vm_compute. reflexivity.
Defined.

(** ** Reset password *)

Section reset.
Context `{!AuthService}.
Variable str : Exception → string.

(** [reset_password], case by case. *)
Lemma reset_password_cases (env : Env) (token new_password confirm_password : string)
    (w : World) :
  routes_auth.reset_password str env token new_password confirm_password w =
    if bool_decide (new_password ≠ confirm_password)
    then (Raise taxonomy.PasswordMismatch, w)
    else match get_email_from_token token (utcnow env) with
         | Raise e => (Raise (routes_auth.unexpected_error str e), w)
         | Ok email =>
           match repository_users.first_by_email email (users w) with
           | None =>
             (Raise (routes_auth.unexpected_error str
                       (NoneType_has_no_attribute "password")), w)
           | Some (i, _) =>
             (Ok password_reset_done,
              {| users := alter (User.set_password
                                   (get_password_hash (urandom env) new_password))
                            i (users w);
                 background_tasks := background_tasks w |})
           end
         end.
Proof.
  route. case_bool_decide; [done|].
  destruct (get_email_from_token token (utcnow env)) as [email|e]; [|done].
  cbv beta iota zeta.
  by destruct (repository_users.first_by_email email (users w)) as [[i u]|].
Qed.

(** When [reset_password] returns: the fields matched, the token decoded
    and its subject is a row of the table. *)
Lemma reset_password_Ok_inv (env : Env) (token new_password confirm_password : string)
    (w w' : World) (r : routes_auth.Message) :
  routes_auth.reset_password str env token new_password confirm_password w = (Ok r, w') →
  new_password = confirm_password ∧
  ∃ email i u,
    get_email_from_token token (utcnow env) = Ok email ∧
    repository_users.first_by_email email (users w) = Some (i, u) ∧
    w' = {| users := alter (User.set_password
                              (get_password_hash (urandom env) new_password))
                       i (users w);
            background_tasks := background_tasks w |}.
Proof.
  rewrite reset_password_cases. case_bool_decide as Hne; [discriminate|].
  destruct (get_email_from_token token (utcnow env)) as [email|e]; [|discriminate].
  destruct (repository_users.first_by_email email (users w)) as [[i u]|] eqn:Hfind;
    [|discriminate].
  intros [= _ <-]. eauto 8.
Qed.

End reset.

(** C6, on the code as it is. [reset_password] with differing new and
    confirm fields fails with PasswordMismatch (422), whatever the token and
    before the token is looked at.  With matching fields, a token that does
    not decode (invalid, expired) or whose subject has no row makes the call
    fail with the HTTP 500 "An unexpected error occurred..." of the [except]
    clause, which carries the text of its cause and is neither
    PasswordMismatch nor the VerificationError of confirm-email.  A failing
    call fails with one of these two. *)
Theorem reset_password_failures `{!AuthService} (str : Exception → string) (env : Env)
    (token new_password confirm_password : string) (w : World) :
  let internal_error (cause : Exception) :=
    HTTPException 500
      ("An unexpected error occurred. Report this message to support: " +:+ str cause) in
  (new_password ≠ confirm_password →
     routes_auth.reset_password str env token new_password confirm_password w
       = (Raise taxonomy.PasswordMismatch, w)) ∧
  (new_password = confirm_password →
     ∀ cause, get_email_from_token token (utcnow env) = Raise cause →
       routes_auth.reset_password str env token new_password confirm_password w
         = (Raise (internal_error cause), w)) ∧
  (new_password = confirm_password →
     ∀ email, get_email_from_token token (utcnow env) = Ok email →
       repository_users.first_by_email email (users w) = None →
       routes_auth.reset_password str env token new_password confirm_password w
         = (Raise (internal_error
                     (AttributeError "'NoneType' object has no attribute 'password'")),
            w)) ∧
  (∀ e w', routes_auth.reset_password str env token new_password confirm_password w
             = (Raise e, w') →
     (e = taxonomy.PasswordMismatch ∧ new_password ≠ confirm_password) ∨
     (∃ cause, e = internal_error cause ∧ new_password = confirm_password)) ∧
  (∀ cause, internal_error cause ≠ taxonomy.PasswordMismatch ∧
            internal_error cause ≠ taxonomy.VerificationError).
Proof.
  intros internal_error. subst internal_error.
  rewrite reset_password_cases. split_and!.
  - intros Hne. by rewrite bool_decide_eq_true_2.
  - intros Heq cause Hdec. rewrite bool_decide_eq_false_2 by (intros Hn; by apply Hn).
    by rewrite Hdec.
  - intros Heq email Hdec Hfind.
    rewrite bool_decide_eq_false_2 by (intros Hn; by apply Hn).
    by rewrite Hdec, Hfind.
  - intros e w'. case_bool_decide as Hne.
    + intros [= <- _]. by left.
    + intros Hfail. right.
      destruct (get_email_from_token token (utcnow env)) as [email|cause].
      * destruct (repository_users.first_by_email email (users w)) as [[i u]|];
          [discriminate|]. injection Hfail as <- _. eauto.
      * injection Hfail as <- _. eauto.
  - intros cause. split; discriminate.
Qed.

(** On the run of the service, with the token of the reset e-mail: fields
    that differ; matching fields and a token that is no token; matching
    fields and a good token of an e-mail that never registered. *)
Lemma reset_password_failures_witness :
  @routes_auth.reset_password scenario.svc spec_model.str (scenario.at_time 110)
     scenario.reset_token "secret2" "secret3" scenario.confirmed
    = (Raise taxonomy.PasswordMismatch, scenario.confirmed) ∧
  @routes_auth.reset_password scenario.svc spec_model.str (scenario.at_time 110)
     "invalid_token" "secret2" "secret2" scenario.confirmed
    = (Raise (HTTPException 500
                ("An unexpected error occurred. Report this message to support: "
                 +:+ spec_model.str
                       (HTTPException 422 "Invalid token for email verification"))),
       scenario.confirmed) ∧
  @routes_auth.reset_password scenario.svc spec_model.str (scenario.at_time 110)
     (@create_email_token scenario.svc "b@x.com" 101) "secret2" "secret2"
     scenario.confirmed
    = (Raise (HTTPException 500
                ("An unexpected error occurred. Report this message to support: "
                 +:+ spec_model.str
                       (AttributeError "'NoneType' object has no attribute 'password'"))),
       scenario.confirmed).
Proof.
  split_and!.
  - apply (@reset_password_failures scenario.svc). vm_compute. discriminate.
  - apply (proj1 (proj2 (@reset_password_failures scenario.svc spec_model.str
             (scenario.at_time 110) "invalid_token" "secret2" "secret2"
             scenario.confirmed))); vm_compute; reflexivity.
  - apply (proj1 (proj2 (proj2 (@reset_password_failures scenario.svc spec_model.str
             (scenario.at_time 110) (@create_email_token scenario.svc "b@x.com" 101)
             "secret2" "secret2" scenario.confirmed))) eq_refl "b@x.com");
      vm_compute; reflexivity.
Defined.

(** C6 as it was stated does not hold.  With matching fields, a token that
    is no token and the reset token presented after its expiry both make
    [reset_password] fail with an HTTP 500, which is not the
    VerificationError (400) of the taxonomy. *)
Lemma reset_password_bad_token_is_internal_error :
  (∃ detail,
     fst (@routes_auth.reset_password scenario.svc spec_model.str (scenario.at_time 110)
            "invalid_token" "secret2" "secret2" scenario.confirmed)
       = Raise (HTTPException 500 detail)) ∧
  fst (@routes_auth.reset_password scenario.svc spec_model.str (scenario.at_time 110)
         "invalid_token" "secret2" "secret2" scenario.confirmed)
    ≠ Raise taxonomy.VerificationError ∧
  (∃ detail,
     fst (@routes_auth.reset_password scenario.svc spec_model.str
            (scenario.at_time 86502) scenario.reset_token "secret2" "secret2"
            scenario.confirmed)
       = Raise (HTTPException 500 detail)) ∧
  fst (@routes_auth.reset_password scenario.svc spec_model.str
         (scenario.at_time 86502) scenario.reset_token "secret2" "secret2"
         scenario.confirmed)
    ≠ Raise taxonomy.VerificationError.
Proof.
  split_and!.
  - eexists. vm_compute. reflexivity.
  - vm_compute. discriminate.
  - eexists. vm_compute. reflexivity.
  - vm_compute. discriminate.
Qed.

(** C9. The reset token is not used up: after a [reset_password] that
    succeeded, which stored the hash of its new password in the row of the
    token's subject, another one with the same token and matching fields
    succeeds too, as long as the token still decodes as it did, and stores
    the hash of the second new password in the same row, leaving everything
    else as the first call left it. *)
Theorem reset_token_not_single_use `{!AuthService} (str : Exception → string)
    (env1 env2 : Env) (token password1 password2 : string) (w w1 : World)
    (r : routes_auth.Message) :
  routes_auth.reset_password str env1 token password1 password1 w = (Ok r, w1) →
  get_email_from_token token (utcnow env2) = get_email_from_token token (utcnow env1) →
  ∃ (email : string) (i : nat) (u : User.t),
    get_email_from_token token (utcnow env1) = Ok email ∧
    repository_users.first_by_email email (users w) = Some (i, u) ∧
    repository_users.first_by_email email (users w1)
      = Some (i, User.set_password (get_password_hash (urandom env1) password1) u) ∧
    routes_auth.reset_password str env2 token password2 password2 w1
      = (Ok password_reset_done,
         {| users := <[i := User.set_password
                             (get_password_hash (urandom env2) password2) u]> (users w1);
            background_tasks := background_tasks w1 |}) ∧
    repository_users.first_by_email email
      (<[i := User.set_password (get_password_hash (urandom env2) password2) u]>
         (users w1))
      = Some (i, User.set_password (get_password_hash (urandom env2) password2) u) ∧
    User.password (User.set_password (get_password_hash (urandom env2) password2) u)
      = get_password_hash (urandom env2) password2.
Proof.
  intros (_ & email & i & u & Hdec & Hfind & ->)%reset_password_Ok_inv Hstill.
  set (h1 := get_password_hash (urandom env1) password1).
  set (h2 := get_password_hash (urandom env2) password2).
  assert (Hfind1 : repository_users.first_by_email email
            (alter (User.set_password h1) i (users w))
            = Some (i, User.set_password h1 u))
    by by apply first_by_email_alter.
  assert (Hrow : alter (User.set_password h2) i (alter (User.set_password h1) i (users w))
            = <[i := User.set_password h2 u]> (alter (User.set_password h1) i (users w))).
  { apply first_by_email_lookup in Hfind as Hi.
    apply list_eq. intros j. destruct (decide (i = j)) as [<-|Hne].
    - rewrite list_lookup_alter_eq, list_lookup_alter_eq, Hi.
      rewrite list_lookup_insert_eq; [done|].
      rewrite length_alter. by eapply lookup_lt_Some.
    - by rewrite list_lookup_alter_ne, list_lookup_insert_ne. }
  subst h1 h2.
  exists email, i, u. cbn [users background_tasks]. split_and!; [done..| | |done].
  - rewrite reset_password_cases.
    rewrite bool_decide_eq_false_2 by (intros Hn; by apply Hn).
    rewrite Hstill, Hdec. cbn [users background_tasks]. rewrite Hfind1.
    by rewrite Hrow.
  - rewrite <- Hrow.
    by rewrite (first_by_email_alter email _ i _
                  (User.set_password (get_password_hash (urandom env2) password2))
                  (λ _, eq_refl) Hfind1).
Qed.

(** Alice resets her password at 110 with the token of the reset e-mail, and
    at 120 with the same token again: the row holds the hash of the second
    password. *)
Lemma reset_token_not_single_use_witness :
  fst (@routes_auth.reset_password scenario.svc spec_model.str (scenario.at_time 120)
         scenario.reset_token "secret3" "secret3"
         (snd (@routes_auth.reset_password scenario.svc spec_model.str
                 (scenario.at_time 110) scenario.reset_token "secret2" "secret2"
                 scenario.confirmed)))
    = Ok password_reset_done ∧
  User.password <$>
    users (snd (@routes_auth.reset_password scenario.svc spec_model.str
                  (scenario.at_time 120) scenario.reset_token "secret3" "secret3"
                  (snd (@routes_auth.reset_password scenario.svc spec_model.str
                          (scenario.at_time 110) scenario.reset_token "secret2" "secret2"
                          scenario.confirmed))))
    = [hasher.hash 7 "secret3"].
Proof.
  destruct (@reset_token_not_single_use scenario.svc spec_model.str
              (scenario.at_time 110) (scenario.at_time 120) scenario.reset_token
              "secret2" "secret3" scenario.confirmed
              (snd (@routes_auth.reset_password scenario.svc spec_model.str
                      (scenario.at_time 110) scenario.reset_token "secret2" "secret2"
                      scenario.confirmed))
              password_reset_done)
    as (email & i & u & Hdec & Hfind & _ & Hrun & _).
  - vm_compute. reflexivity.
  - vm_compute. reflexivity.
  - rewrite Hrun. cbn [fst snd users]. split; [reflexivity|].
    vm_compute in Hdec. injection Hdec as <-.
    vm_compute in Hfind. injection Hfind as <- <-. vm_compute. reflexivity.
Defined.

(** C10. A [reset_password] that fails, for whatever reason, leaves the
    state as it found it: no password column of any row has changed. *)
Theorem reset_password_failure_changes_nothing `{!AuthService}
    (str : Exception → string) (env : Env)
    (token new_password confirm_password : string) (w w' : World) (e : Exception) :
  routes_auth.reset_password str env token new_password confirm_password w
    = (Raise e, w') →
  w' = w ∧ User.password <$> users w' = User.password <$> users w.
Proof.
  rewrite reset_password_cases. intros Hfail.
  assert (w' = w) as ->; [|done].
  case_bool_decide; [congruence|].
  destruct (get_email_from_token token (utcnow env)) as [email|cause]; [|congruence].
  destruct (repository_users.first_by_email email (users w)) as [[i u]|];
    [discriminate|congruence].
Qed.

(** A valid token whose subject has no row: the call fails and the table
    is as before. *)
Lemma reset_password_failure_changes_nothing_witness :
  snd (@routes_auth.reset_password scenario.svc spec_model.str (scenario.at_time 110)
         (@create_email_token scenario.svc "b@x.com" 101) "secret2" "secret2"
         scenario.confirmed) = scenario.confirmed ∧
  User.password <$>
    users (snd (@routes_auth.reset_password scenario.svc spec_model.str
                  (scenario.at_time 110)
                  (@create_email_token scenario.svc "b@x.com" 101) "secret2" "secret2"
                  scenario.confirmed))
    = User.password <$> users scenario.confirmed.
Proof.
  apply (@reset_password_failure_changes_nothing scenario.svc spec_model.str
           (scenario.at_time 110) (@create_email_token scenario.svc "b@x.com" 101)
           "secret2" "secret2" scenario.confirmed _
           (routes_auth.unexpected_error spec_model.str
              (NoneType_has_no_attribute "password"))).
  vm_compute. reflexivity.
Defined.

(** ** Confirm e-mail *)

Section confirm.
Context `{!AuthService}.

(** [confirmed_email], case by case. *)
Lemma confirmed_email_cases (env : Env) (token : string) (w : World) :
  routes_auth.confirmed_email env token w =
    match get_email_from_token token (utcnow env) with
    | Raise e => (Raise e, w)
    | Ok email =>
      match repository_users.first_by_email email (users w) with
      | None => (Raise taxonomy.VerificationError, w)
      | Some (i, u) =>
        if User.confirmed u then (Ok already_confirmed, w)
        else (Ok email_confirmed,
              {| users := alter (User.set_confirmed true) i (users w);
                 background_tasks := background_tasks w |})
      end
    end.
Proof.
  route. destruct (get_email_from_token token (utcnow env)) as [email|e]; [|done].
  cbv beta iota zeta.
  destruct (repository_users.first_by_email email (users w)) as [[i u]|] eqn:Hfind;
    [|done].
  destruct (User.confirmed u); [done|]. by given Hfind.
Qed.

(** Calls on a confirmed user change nothing, so any number of them in a
    row answer alike. *)
Lemma confirmed_email_repeated (token email : string) (i : nat) (u : User.t)
    (w : World) (envs : list Env) :
  repository_users.first_by_email email (users w) = Some (i, u) →
  User.confirmed u = true →
  Forall (λ env, get_email_from_token token (utcnow env) = Ok email) envs →
  run_all ((λ env, routes_auth.confirmed_email env token) <$> envs) w
    = ((λ _, Ok already_confirmed) <$> envs, w).
Proof.
  intros Hfind Hconf. induction 1 as [|env envs Hdec _ IH]; [done|].
  cbn [fmap list_fmap run_all]. rewrite confirmed_email_cases, Hdec, Hfind, Hconf.
  change (list_fmap _ _ ?f envs) with (f <$> envs). by rewrite IH.
Qed.

End confirm.

(** C8. Confirming is idempotent: with a token that decodes to a user who is
    confirmed already, every call of a series answers "already confirmed" and
    the state stays as it is; a token whose subject has no row fails with
    VerificationError; otherwise the call sets [confirmed] of the user to
    true, after which the first case applies. *)
Theorem confirmed_email_idempotent `{!AuthService} (token email : string) (w : World) :
  (∀ i u envs,
     repository_users.first_by_email email (users w) = Some (i, u) →
     User.confirmed u = true →
     Forall (λ env, get_email_from_token token (utcnow env) = Ok email) envs →
     run_all ((λ env, routes_auth.confirmed_email env token) <$> envs) w
       = ((λ _, Ok already_confirmed) <$> envs, w)) ∧
  (∀ env,
     get_email_from_token token (utcnow env) = Ok email →
     repository_users.first_by_email email (users w) = None →
     routes_auth.confirmed_email env token w = (Raise taxonomy.VerificationError, w)) ∧
  (∀ env i u,
     get_email_from_token token (utcnow env) = Ok email →
     repository_users.first_by_email email (users w) = Some (i, u) →
     User.confirmed u = false →
     ∃ (w' : World) (u' : User.t),
       routes_auth.confirmed_email env token w = (Ok email_confirmed, w') ∧
       repository_users.first_by_email email (users w') = Some (i, u') ∧
       User.confirmed u' = true).
Proof.
  split_and!.
  - intros i u envs. apply confirmed_email_repeated.
  - intros env Hdec Hfind. by rewrite confirmed_email_cases, Hdec, Hfind.
  - intros env i u Hdec Hfind Hconf.
    rewrite confirmed_email_cases, Hdec, Hfind, Hconf.
    eexists _, (User.set_confirmed true u). split_and!; [done| |done].
    by apply first_by_email_alter.
Qed.

(** Alice confirms at 102; three more calls with her token answer "already
    confirmed" and leave the state alone; a token for an e-mail that never
    registered is refused. *)
Lemma confirmed_email_idempotent_witness :
  (∃ (w' : World) (u' : User.t),
     @routes_auth.confirmed_email scenario.svc (scenario.at_time 102)
        scenario.confirmation_token scenario.registered = (Ok email_confirmed, w') ∧
     repository_users.first_by_email "a@x.com" (users w') = Some (0, u') ∧
     User.confirmed u' = true) ∧
  run_all ((λ env, @routes_auth.confirmed_email scenario.svc env
                     scenario.confirmation_token)
             <$> [scenario.at_time 103; scenario.at_time 104; scenario.at_time 105])
          scenario.confirmed
    = ([Ok already_confirmed; Ok already_confirmed; Ok already_confirmed],
       scenario.confirmed) ∧
  @routes_auth.confirmed_email scenario.svc (scenario.at_time 102)
     (@create_email_token scenario.svc "b@x.com" 101) scenario.registered
    = (Raise taxonomy.VerificationError, scenario.registered).
Proof.
  split_and!.
  - eapply (proj2 (proj2 (@confirmed_email_idempotent scenario.svc
              scenario.confirmation_token "a@x.com" scenario.registered)));
      vm_compute; reflexivity.
  - eapply (proj1 (@confirmed_email_idempotent scenario.svc
              scenario.confirmation_token "a@x.com" scenario.confirmed) 0).
    + vm_compute. reflexivity.
    + reflexivity.
    + repeat constructor.
  - apply (proj1 (proj2 (@confirmed_email_idempotent scenario.svc
             (@create_email_token scenario.svc "b@x.com" 101) "b@x.com"
             scenario.registered))); vm_compute; reflexivity.
Defined.

(** ** Asking for the confirmation e-mail again, and forgetting a password *)

(** [verify_by_email] reads [user.confirmed] before it asks whether there
    is a user. *)
Lemma verify_by_email_no_user (body : RequestEmail.t) (base_url : string) (w : World) :
  repository_users.first_by_email (RequestEmail.email body) (users w) = None →
  routes_auth.verify_by_email body base_url w
    = (Raise (NoneType_has_no_attribute "confirmed"), w).
Proof. intros Hfind. route. by given Hfind. Qed.

Lemma verify_by_email_user (body : RequestEmail.t) (base_url : string) (w : World)
    (i : nat) (u : User.t) :
  repository_users.first_by_email (RequestEmail.email body) (users w) = Some (i, u) →
  ∃ (m : routes_auth.Message) (w' : World),
    routes_auth.verify_by_email body base_url w = (Ok m, w') ∧ users w' = users w.
Proof.
  intros Hfind. route. given Hfind. destruct (User.confirmed u); eauto.
Qed.

(** The sibling route asks first, and acknowledges for every e-mail. *)
Lemma forgot_password_acknowledges (body : RequestEmail.t) (base_url : string)
    (w : World) :
  ∃ w' : World,
    routes_auth.forgot_password body base_url w
      = (Ok {| routes_auth.message := "Check your email for reset password." |}, w') ∧
    users w' = users w.
Proof.
  route. destruct (repository_users.first_by_email _ (users w)) as [[i u]|]; eauto.
Qed.

(** C7, on the code: asking for the confirmation e-mail of an address that
    has no row ends in an [AttributeError], not in an acknowledgment. *)
Theorem verify_by_email_unknown_address_raises :
  routes_auth.verify_by_email (RequestEmail.mk "b@x.com") "http://host/"
    scenario.confirmed
    = (Raise (AttributeError "'NoneType' object has no attribute 'confirmed'"),
       scenario.confirmed).
Proof. apply verify_by_email_no_user. vm_compute. reflexivity. Qed.

(** ** Old refresh tokens stay dead along a run *)

Lemma first_by_email_alter_inv (e : string) (us : list User.t) (i j : nat)
    (v : User.t) (upd : User.t → User.t) :
  (∀ x, User.email (upd x) = User.email x) →
  repository_users.first_by_email e (alter upd i us) = Some (j, v) →
  ∃ v0, repository_users.first_by_email e us = Some (j, v0) ∧
        ((j = i ∧ v = upd v0) ∨ (j ≠ i ∧ v = v0)).
Proof.
  unfold repository_users.first_by_email.
  intros Hupd (Hj & He & Hleast)%list_find_Some.
  assert (Hbefore : ∀ k y, us !! k = Some y → k < j → User.email y ≠ e).
  { intros k y Hk Hlt. destruct (decide (k = i)) as [->|Hki].
    - rewrite <- (Hupd y). apply (Hleast i); [|done].
      by rewrite list_lookup_alter_eq, Hk.
    - apply (Hleast k); [|done]. by rewrite list_lookup_alter_ne. }
  destruct (decide (j = i)) as [->|Hji].
  - rewrite list_lookup_alter_eq in Hj.
    destruct (us !! i) as [v0|] eqn:Hi; [|done]. injection Hj as <-.
    exists v0. split; [|by left]. apply list_find_Some. split_and!; [done| |done].
    by rewrite <- (Hupd v0).
  - rewrite list_lookup_alter_ne in Hj by done.
    exists v. split; [|by right]. by apply list_find_Some.
Qed.

Lemma first_by_email_snoc_inv (e : string) (us : list User.t) (x : User.t) (j : nat)
    (v : User.t) :
  repository_users.first_by_email e (us ++ [x]) = Some (j, v) →
  repository_users.first_by_email e us = Some (j, v) ∨ v = x.
Proof.
  unfold repository_users.first_by_email.
  intros [?|(_ & _ & Hx)]%list_find_app_Some; [by left|right].
  apply list_find_Some in Hx as (Hx & _). by apply list_lookup_singleton_Some in Hx as [_ ->].
Qed.

Section runs.
Context `{!AuthService}.
Variable get_image : string → option string.
Variable str : Exception → string.

(** Every request has one of the listed effects on the table. *)
Lemma serve_effect (env : Env) (r : Request) (w : World) :
  Effect (utcnow env) (users w) (users (serve get_image str env r w)).
Proof.
  destruct r as [body base_url|body|token|token|body base_url|body base_url|token np cp];
    cbn [serve].
  - route.
    destruct (repository_users.first_by_email (UserModel.email body) (users w))
      as [[i u]|] eqn:Hfind; [constructor|].
    cbn [snd users]. by apply effect_insert.
  - route.
    destruct (repository_users.first_by_email _ (users w)) as [[i u]|] eqn:Hfind;
      [|constructor].
    destruct (User.confirmed u); [|constructor]. cbn [negb].
    destruct (verify_password _ _); [|constructor]. cbn [negb snd users].
    rewrite (first_by_email_email _ _ _ _ Hfind). by eapply effect_rotate.
  - route.
    destruct (decode_refresh_token token (utcnow env)) as [email|]; [|constructor].
    cbv beta iota zeta.
    destruct (repository_users.first_by_email email (users w)) as [[i u]|] eqn:Hfind;
      [|constructor].
    case_bool_decide; cbn [snd users].
    + by eapply effect_clear.
    + by eapply effect_rotate.
  - rewrite confirmed_email_cases.
    destruct (get_email_from_token token (utcnow env)) as [email|]; [|constructor].
    destruct (repository_users.first_by_email email (users w)) as [[i u]|] eqn:Hfind;
      [|constructor].
    destruct (User.confirmed u); [constructor|]. cbn [snd users].
    by eapply effect_column.
  - route.
    destruct (repository_users.first_by_email _ (users w)) as [[i u]|]; [|constructor].
    destruct (User.confirmed u); constructor.
  - route.
    destruct (repository_users.first_by_email _ (users w)) as [[i u]|]; constructor.
  - rewrite reset_password_cases. case_bool_decide; [constructor|].
    destruct (get_email_from_token token (utcnow env)) as [email|]; [|constructor].
    destruct (repository_users.first_by_email email (users w)) as [[i u]|] eqn:Hfind;
      [|constructor].
    cbn [snd users]. by eapply effect_column.
Qed.

(** No effect at or after [t] brings back a token issued before [t]. *)
Lemma effect_not_issued_before (e : string) (t now : N) (us us' : list User.t) :
  refresh_issue_injective → (t ≤ now)%N →
  Effect now us us' → not_issued_before e t us → not_issued_before e t us'.
Proof.
  intros Hinj Hle Heff Hinv j v Hfind t_old Hlt.
  destruct Heff as [|x Hnone Hx|e' i u Hi|e' i u Hi|e' i u upd Hi Hemail Htoken].
  - by eapply Hinv.
  - apply first_by_email_snoc_inv in Hfind as [Hfind| ->].
    + by eapply Hinv.
    + by rewrite Hx.
  - apply first_by_email_alter_inv in Hfind as (v0 & Hfind & [[-> ->]|[_ ->]]); [| |done].
    + done.
    + by eapply Hinv.
  - apply first_by_email_alter_inv in Hfind as (v0 & Hfind & [[-> ->]|[_ ->]]); [| |done].
    + assert (e' = e) as ->.
      { rewrite <- (first_by_email_email _ _ _ _ Hi).
        assert (v0 = u) as -> by (apply first_by_email_lookup in Hfind, Hi; congruence).
        by apply first_by_email_email in Hfind. }
      cbn [User.set_refresh_token User.refresh_token].
      intros [= Heq]. apply Hinj in Heq. lia.
    + by eapply Hinv.
  - apply first_by_email_alter_inv in Hfind as (v0 & Hfind & [[-> ->]|[_ ->]]); [| |done].
    + rewrite Htoken. by eapply Hinv.
    + by eapply Hinv.
Qed.

(** Along a run whose clock never reads less than [t], the stored token of a
    user is never one issued before [t]. *)
Lemma serve_all_not_issued_before (e : string) (t : N) (rs : list (Env * Request))
    (w : World) :
  refresh_issue_injective →
  Forall (λ er, (t ≤ utcnow er.1)%N) rs →
  not_issued_before e t (users w) →
  not_issued_before e t (users (serve_all get_image str rs w)).
Proof.
  intros Hinj Hrs. revert w.
  induction Hrs as [|[env r] rs Hle _ IH]; intros w Hinv; [done|].
  cbn [serve_all]. apply IH.
  eapply effect_not_issued_before; [done|exact Hle|apply serve_effect|done].
Qed.

(** Once a login or a refresh has succeeded at [utcnow env], a token issued
    for the user before that is refused at every later point of a run, as
    long as the user has a row. *)
Lemma old_refresh_token_stays_refused (env env' : Env) (w w' : World)
    (resp : TokenModel.t) (email : string) (rs : list (Env * Request)) (t_old : N) :
  refresh_issue_injective →
  (∃ body, OAuth2PasswordRequestForm.username body = email ∧
           routes_auth.login env body w = (Ok resp, w')) ∨
  (∃ token, decode_refresh_token token (utcnow env) = Ok email ∧
            routes_auth.refresh_token env token w = (Ok resp, w')) →
  Forall (λ er, (utcnow env ≤ utcnow er.1)%N) rs →
  (t_old < utcnow env)%N →
  decode_refresh_token (create_refresh_token email t_old) (utcnow env') = Ok email →
  ∃ e w'',
    routes_auth.refresh_token env' (create_refresh_token email t_old)
      (serve_all get_image str rs w') = (Raise e, w'').
Proof.
  intros Hinj Hcall Hrs Hlt Hdec.
  assert (Hinv : not_issued_before email (utcnow env) (users w')).
  { assert (∃ i u, repository_users.first_by_email email (users w') = Some (i, u) ∧
              User.refresh_token u = Some (create_refresh_token email (utcnow env)))
      as (i & u & Hfind & Hstored).
    { destruct Hcall as [(body & <- & Hlogin)|(token & Hdec' & Hrefresh)].
      - apply login_Ok_inv in Hlogin as (i & u & Hfind & -> & ->).
        rewrite (first_by_email_email _ _ _ _ Hfind).
        exists i, (User.set_refresh_token
                     (Some (create_refresh_token
                              (OAuth2PasswordRequestForm.username body) (utcnow env))) u).
        split; [|done]. by apply (first_by_email_alter _ (users w) i u).
      - pose proof (refresh_token_Ok_inv _ _ _ _ _ Hrefresh)
          as (email' & i & u & Hdec'' & Hfind & Heq).
        assert (email' = email) as -> by congruence.
        rewrite (refresh_token_match env token email i u w) in Hrefresh by done.
        injection Hrefresh as <- <-.
        exists i, (User.set_refresh_token
                     (Some (create_refresh_token email (utcnow env))) u).
        split; [|done]. by apply (first_by_email_alter _ (users w) i u). }
    intros j v Hj t Ht. assert (v = u) as -> by congruence.
    rewrite Hstored. intros [= Heq]. apply Hinj in Heq. lia. }
  pose proof (serve_all_not_issued_before email (utcnow env) rs w' Hinj Hrs Hinv) as Hlater.
  set (w1 := serve_all get_image str rs w') in *.
  destruct (repository_users.first_by_email email (users w1)) as [[i u]|] eqn:Hfind.
  - eexists _, _.
    apply (refresh_token_mismatch env' _ email i u w1); [done..|].
    by apply (Hlater i u).
  - eexists _, _. route. given Hdec. by given Hfind.
Qed.

End runs.

(** ** Purposes *)

(** Parsing what the codec issued, before and after its expiry. *)
Lemma parse_issue_in_time (secret sub : string) (p : codec.Purpose) (issued ttl now : N)
    (expected : option codec.Purpose) :
  (now ≤ issued + ttl)%N →
  codec.parse secret now expected (codec.issue sub p issued ttl secret) =
    match expected with
    | Some q => if bool_decide (p = q) then codec.Valid (codec.claims_at sub p issued ttl)
                else codec.Invalid codec.WrongPurpose
    | None => codec.Valid (codec.claims_at sub p issued ttl)
    end.
Proof.
  intros Hle. unfold codec.issue. rewrite parse_sign. cbn [codec.claims_at codec.expires_at].
  by rewrite (proj2 (N.ltb_ge _ _)) by done.
Qed.

Lemma parse_issue_expired (secret sub : string) (p : codec.Purpose) (issued ttl now : N)
    (expected : option codec.Purpose) :
  (issued + ttl < now)%N →
  codec.parse secret now expected (codec.issue sub p issued ttl secret)
    = codec.Invalid codec.Expired.
Proof.
  intros Hlt. unfold codec.issue. rewrite parse_sign. cbn [codec.claims_at codec.expires_at].
  by rewrite (proj2 (N.ltb_lt _ _)) by done.
Qed.

Section shared_email_token.
Context `{!AuthService}.
Variable str : Exception → string.

(** Both e-mails carry a token from the same call of [create_email_token]. *)
Lemma email_tokens_same_issuer (now : N) (email username host : string) :
  services_email.body_token (services_email.send_verification_email now email username host)
    = create_email_token email now ∧
  services_email.body_token (services_email.send_reset_email now email username host)
    = create_email_token email now.
Proof. done. Qed.

(** Both routes take a token through the same call of [get_email_from_token]
    and ask for the same row: one accepts what the other accepts. *)
Lemma confirm_accepts_iff_reset_accepts (env : Env) (token password : string) (w : World) :
  (∃ m w', routes_auth.confirmed_email env token w = (Ok m, w')) ↔
  (∃ m w', routes_auth.reset_password str env token password password w = (Ok m, w')).
Proof.
  rewrite confirmed_email_cases, reset_password_cases.
  rewrite bool_decide_eq_false_2 by (intros Hn; by apply Hn).
  destruct (get_email_from_token token (utcnow env)) as [email|e].
  - destruct (repository_users.first_by_email email (users w)) as [[i u]|].
    + split; intros _; [eauto|]. destruct (User.confirmed u); eauto.
    + split; intros (? & ? & [=]).
  - split; intros (? & ? & [=]).
Qed.

End shared_email_token.

(** C3, on the code as it is: a token of purpose X, parsed under the secret
    that signed it and not after its expiry by a caller that expects another
    purpose Y, fails with WrongPurpose (so neither Malformed nor success).
    The confirmation and the reset e-mail carry a token of one and the same
    issuer, and confirm-email and reset-password read it through one and the
    same parser: reset-password (with matching fields) accepts exactly the
    tokens confirm-email accepts. *)
Theorem purpose_check_and_shared_email_token :
  (∀ (secret sub : string) (X Y : codec.Purpose) (issued ttl now : N),
     X ≠ Y → (now ≤ issued + ttl)%N →
     codec.parse secret now (Some Y) (codec.issue sub X issued ttl secret)
       = codec.Invalid codec.WrongPurpose) ∧
  (∀ `{!AuthService} (now : N) (email username host : string),
     services_email.body_token
       (services_email.send_verification_email now email username host)
     = services_email.body_token
         (services_email.send_reset_email now email username host)) ∧
  (∀ `{!AuthService} (str : Exception → string) (env : Env) (token password : string)
     (w : World),
     (∃ m w', routes_auth.confirmed_email env token w = (Ok m, w')) ↔
     (∃ m w', routes_auth.reset_password str env token password password w = (Ok m, w'))).
Proof.
  split_and!.
  - intros secret sub X Y issued ttl now Hne Hle.
    rewrite parse_issue_in_time by done. by rewrite bool_decide_eq_false_2.
  - done.
  - intros ? str env token password w. apply confirm_accepts_iff_reset_accepts.
Qed.

(** The refresh token of Alice's login, presented at 104 where an access
    token is expected; and her confirmation token, which confirm-email
    accepted at 102, presented to reset-password. *)
Lemma purpose_check_and_shared_email_token_witness :
  codec.parse "secret_key" 104 (Some codec.access)
    (codec.issue "a@x.com" codec.refresh 103 604800 "secret_key")
    = codec.Invalid codec.WrongPurpose ∧
  ∃ m w',
    @routes_auth.reset_password scenario.svc spec_model.str (scenario.at_time 102)
       scenario.confirmation_token "secret2" "secret2" scenario.registered = (Ok m, w').
Proof.
  destruct purpose_check_and_shared_email_token as (Hpurpose & _ & Hshared).
  split.
  - apply Hpurpose; [discriminate|vm_compute; discriminate].
  - apply (proj1 (Hshared scenario.svc spec_model.str (scenario.at_time 102)
                    scenario.confirmation_token "secret2" scenario.registered)).
    eexists _, _. vm_compute. reflexivity.
Defined.

(** C3 as it was stated does not hold.  A refresh token parsed after its
    expiry where an access token is expected fails with Expired, not with
    WrongPurpose; and the token of the confirmation e-mail, presented to
    reset-password, is accepted and changes Alice's password. *)
Lemma confirmation_token_resets_password :
  codec.parse "secret_key" 604904 (Some codec.access)
    (codec.issue "a@x.com" codec.refresh 103 604800 "secret_key")
    = codec.Invalid codec.Expired ∧
  services_email.template_name
    (@services_email.run_task scenario.svc 101 scenario.verification_task)
    = "email_verify_template.html" ∧
  scenario.confirmation_token
    = services_email.body_token
        (@services_email.run_task scenario.svc 101 scenario.verification_task) ∧
  fst (@routes_auth.reset_password scenario.svc spec_model.str (scenario.at_time 110)
         scenario.confirmation_token "secret2" "secret2" scenario.confirmed)
    = Ok password_reset_done ∧
  User.password <$>
    users (snd (@routes_auth.reset_password scenario.svc spec_model.str
                  (scenario.at_time 110) scenario.confirmation_token "secret2" "secret2"
                  scenario.confirmed))
    = [hasher.hash 7 "secret2"].
Proof. split_and!; vm_compute; reflexivity. Qed.

(** ** The model of [auth_service] against the tests of the repository *)

(** An e-mail token decodes to its subject until its expiry is past. *)
Lemma spec_model_email_token_valid (cfg : spec_model.Config) (sub : string) (issued now : N) :
  (now ≤ issued + spec_model.email_ttl cfg)%N →
  @get_email_from_token (spec_model.auth_service cfg)
    (@create_email_token (spec_model.auth_service cfg) sub issued) now = Ok sub.
Proof.
  intros Hle. cbn [get_email_from_token create_email_token spec_model.auth_service].
  by rewrite parse_issue_in_time.
Qed.

(** A refresh token decodes to its subject until its expiry is past. *)
Lemma spec_model_refresh_token_valid (cfg : spec_model.Config) (sub : string)
    (issued now : N) :
  (now ≤ issued + spec_model.refresh_ttl cfg)%N →
  @decode_refresh_token (spec_model.auth_service cfg)
    (@create_refresh_token (spec_model.auth_service cfg) sub issued) now = Ok sub.
Proof.
  intros Hle. cbn [decode_refresh_token create_refresh_token spec_model.auth_service].
  rewrite parse_issue_in_time by done. by rewrite bool_decide_eq_true_2.
Qed.

(** An access token is no refresh token. *)
Lemma spec_model_access_token_not_refresh (cfg : spec_model.Config) (sub : string)
    (issued now : N) :
  @decode_refresh_token (spec_model.auth_service cfg)
    (@create_access_token (spec_model.auth_service cfg) sub issued) now
    = Raise (HTTPException 401 "Could not validate credentials").
Proof.
  cbn [decode_refresh_token create_access_token spec_model.auth_service].
  destruct (decide (now ≤ issued + spec_model.access_ttl cfg)%N) as [Hle|Hgt].
  - rewrite parse_issue_in_time by done. by rewrite bool_decide_eq_false_2.
  - rewrite parse_issue_expired by lia. done.
Qed.

(** [test_refresh_token_invalid] *)
Example test_refresh_token_invalid :
  fst (@routes_auth.refresh_token scenario.svc (scenario.at_time 104)
         "invalid_refresh_token" scenario.logged_in)
    = Raise (HTTPException 401 "Could not validate credentials").
Proof. vm_compute. reflexivity. Qed.

(** [test_refresh_token]: the stored token is presented. *)
Example test_refresh_token :
  TokenModel.token_type <$>
    (match fst (@routes_auth.refresh_token scenario.svc (scenario.at_time 104)
                  scenario.first_refresh_token scenario.logged_in) with
     | Ok data => Some data
     | Raise _ => None
     end) = Some "bearer".
Proof. vm_compute. reflexivity. Qed.

(** [test_confirmed_email_success]: the test sets [confirmed] back to false
    and presents the stored refresh token to confirm-email. *)
Example test_confirmed_email_success :
  fst (@routes_auth.confirmed_email scenario.svc (scenario.at_time 104)
         scenario.first_refresh_token
         {| users := alter (User.set_confirmed false) 0 (users scenario.logged_in);
            background_tasks := background_tasks scenario.logged_in |})
    = Ok email_confirmed.
Proof. vm_compute. reflexivity. Qed.

(** [test_confirmed_email_already_confirmed] *)
Example test_confirmed_email_already_confirmed :
  fst (@routes_auth.confirmed_email scenario.svc (scenario.at_time 104)
         scenario.first_refresh_token scenario.logged_in)
    = Ok already_confirmed.
Proof. vm_compute. reflexivity. Qed.

(** [test_confirmed_email_invalid_token] *)
Example test_confirmed_email_invalid_token :
  fst (@routes_auth.confirmed_email scenario.svc (scenario.at_time 104)
         "invalid_token" scenario.logged_in)
    = Raise (HTTPException 422 "Invalid token for email verification").
Proof. vm_compute. reflexivity. Qed.

(** [test_verify_by_email_already_confirmed] and [test_forgot_password] *)
Example test_verify_by_email_already_confirmed :
  fst (routes_auth.verify_by_email (RequestEmail.mk "a@x.com") "http://host/"
         scenario.logged_in)
    = Ok already_confirmed.
Proof. vm_compute. reflexivity. Qed.

Example test_forgot_password :
  fst (routes_auth.forgot_password (RequestEmail.mk "a@x.com") "http://host/"
         scenario.logged_in)
    = Ok {| routes_auth.message := "Check your email for reset password." |}.
Proof. vm_compute. reflexivity. Qed.

(** [test_reset_password], [test_reset_invalid_password] and
    [test_reset_password_exception] *)
Example test_reset_password :
  fst (@routes_auth.reset_password scenario.svc spec_model.str (scenario.at_time 104)
         scenario.first_refresh_token "test_pass" "test_pass" scenario.logged_in)
    = Ok password_reset_done.
Proof. vm_compute. reflexivity. Qed.

Example test_reset_invalid_password :
  fst (@routes_auth.reset_password scenario.svc spec_model.str (scenario.at_time 104)
         scenario.first_refresh_token "ererererer" "dfgdgdfgdfgdfg" scenario.logged_in)
    = Raise (HTTPException 422 "Unprocessable Entity").
Proof. vm_compute. reflexivity. Qed.

Example test_reset_password_exception :
  fst (@routes_auth.reset_password scenario.svc spec_model.str (scenario.at_time 104)
         "invalid_token" "test_pass" "test_pass" scenario.logged_in)
    = Raise (HTTPException 500
        "An unexpected error occurred. Report this message to support: 422: Invalid token for email verification").
Proof. vm_compute. reflexivity. Qed.

(** * More on the routes of [src/routes/auth.py] *)

(** ** Forgotten passwords and repeated confirmation e-mails *)

(** X1. [forgot_password] acknowledges every e-mail with the same answer and
    never touches the table; it queues one reset e-mail, to the address and
    name of the row, exactly when the e-mail is registered. *)
Theorem forgot_password_outcome (body : RequestEmail.t) (base_url : string) (w : World) :
  fst (routes_auth.forgot_password body base_url w)
    = Ok {| routes_auth.message := "Check your email for reset password." |} ∧
  users (snd (routes_auth.forgot_password body base_url w)) = users w ∧
  background_tasks (snd (routes_auth.forgot_password body base_url w))
    = (background_tasks w ++
       match repository_users.first_by_email (RequestEmail.email body) (users w) with
       | Some (_, u) =>
           [Build_Task fn_send_reset_email (User.email u) (User.username u) base_url]
       | None => []
       end)%list.
Proof.
  route.
  destruct (repository_users.first_by_email _ (users w)) as [[i u]|];
    cbn [fst snd users background_tasks]; split_and!; try done.
  by rewrite app_nil_r.
Qed.

(** X2. For a registered e-mail, [verify_by_email] answers "already
    confirmed" and queues nothing when the row is confirmed, and otherwise
    acknowledges and queues one confirmation e-mail to the address and name
    of the row; the table stays as it is. *)
Theorem verify_by_email_registered (body : RequestEmail.t) (base_url : string)
    (w : World) (i : nat) (u : User.t) :
  repository_users.first_by_email (RequestEmail.email body) (users w) = Some (i, u) →
  routes_auth.verify_by_email body base_url w =
    if User.confirmed u then (Ok already_confirmed, w)
    else (Ok {| routes_auth.message := "Check your email for confirmation." |},
          {| users := users w;
             background_tasks :=
               background_tasks w ++
               [Build_Task fn_send_verification_email (User.email u) (User.username u)
                  base_url] |}).
Proof. intros Hfind. route. given Hfind. by destruct (User.confirmed u). Qed.

(** Alice, registered and not yet confirmed, asks for the e-mail again. *)
Lemma verify_by_email_registered_witness :
  routes_auth.verify_by_email (RequestEmail.mk "a@x.com") "http://host/"
    scenario.registered
  = (Ok {| routes_auth.message := "Check your email for confirmation." |},
     {| users := users scenario.registered;
        background_tasks :=
          [scenario.verification_task; scenario.verification_task] |}).
Proof.
  rewrite (verify_by_email_registered (RequestEmail.mk "a@x.com") "http://host/"
             scenario.registered 0
             (User.mk 1 "alice" "a@x.com" (hasher.hash 7 "secret1")
                (Some "https://www.gravatar.com/avatar/a@x.com") 100 None false)).
  - vm_compute. reflexivity.
  - vm_compute. reflexivity.
Defined.

(** ** The page of the reset form *)

Section reset_template.
Context `{!AuthService}.
Variable str : Exception → string.

Lemma reset_password_template_cases (env : Env) (token base_url : string) (w : World) :
  routes_auth.reset_password_template str env token base_url w =
    match get_email_from_token token (utcnow env) with
    | Raise e => (Raise (routes_auth.unexpected_error str e), w)
    | Ok email =>
      match repository_users.first_by_email email (users w) with
      | None =>
        (Raise (routes_auth.unexpected_error str (HTTPException 400 "Invalid token")), w)
      | Some (_, u) =>
        (Ok {| routes_auth.template := "reset_password.html";
               routes_auth.ctx_host := base_url;
               routes_auth.ctx_username := User.username u;
               routes_auth.ctx_token := token;
               routes_auth.ctx_email := email |}, w)
      end
    end.
Proof.
  unfold routes_auth.reset_password_template. route.
  destruct (get_email_from_token token (utcnow env)) as [email|e]; [|done].
  cbv beta iota zeta.
  by destruct (repository_users.first_by_email email (users w)) as [[i u]|].
Qed.

End reset_template.

(** X3. [reset_password_template] never changes the state and never
    answers 400: every failure, its own "Invalid token" for a token whose
    subject has no row included, leaves as the 500 of the [except] clause;
    when the token decodes to a registered e-mail the page is rendered with
    the name of that row. *)
Theorem reset_password_template_outcomes `{!AuthService} (str : Exception → string)
    (env : Env) (token base_url : string) (w : World) :
  snd (routes_auth.reset_password_template str env token base_url w) = w ∧
  (∀ e, fst (routes_auth.reset_password_template str env token base_url w) = Raise e →
     ∃ cause, e = HTTPException 500
       ("An unexpected error occurred. Report this message to support: " +:+ str cause)) ∧
  (∀ email, get_email_from_token token (utcnow env) = Ok email →
     repository_users.first_by_email email (users w) = None →
     fst (routes_auth.reset_password_template str env token base_url w)
       = Raise (HTTPException 500
           ("An unexpected error occurred. Report this message to support: "
            +:+ str (HTTPException 400 "Invalid token")))) ∧
  (∀ email i u, get_email_from_token token (utcnow env) = Ok email →
     repository_users.first_by_email email (users w) = Some (i, u) →
     fst (routes_auth.reset_password_template str env token base_url w)
       = Ok {| routes_auth.template := "reset_password.html";
               routes_auth.ctx_host := base_url;
               routes_auth.ctx_username := User.username u;
               routes_auth.ctx_token := token;
               routes_auth.ctx_email := email |}).
Proof.
  rewrite reset_password_template_cases. split_and!.
  - destruct (get_email_from_token token (utcnow env)) as [email|e]; [|done].
    by destruct (repository_users.first_by_email email (users w)) as [[i u]|].
  - intros e.
    destruct (get_email_from_token token (utcnow env)) as [email|cause].
    + destruct (repository_users.first_by_email email (users w)) as [[i u]|];
        cbn [fst]; [discriminate|]. intros [= <-]. eauto.
    + cbn [fst]. intros [= <-]. eauto.
  - intros email Hdec Hfind. by rewrite Hdec, Hfind.
  - intros email i u Hdec Hfind. by rewrite Hdec, Hfind.
Qed.

(** A token for an e-mail that never registered, and Alice's reset token. *)
Lemma reset_password_template_outcomes_witness :
  fst (@routes_auth.reset_password_template scenario.svc spec_model.str
         (scenario.at_time 110) (@create_email_token scenario.svc "b@x.com" 101)
         "http://host/" scenario.confirmed)
    = Raise (HTTPException 500
        "An unexpected error occurred. Report this message to support: 400: Invalid token") ∧
  fst (@routes_auth.reset_password_template scenario.svc spec_model.str
         (scenario.at_time 110) scenario.reset_token "http://host/" scenario.confirmed)
    = Ok {| routes_auth.template := "reset_password.html";
            routes_auth.ctx_host := "http://host/";
            routes_auth.ctx_username := "alice";
            routes_auth.ctx_token := scenario.reset_token;
            routes_auth.ctx_email := "a@x.com" |}.
Proof.
  split.
  - apply (proj1 (proj2 (proj2 (@reset_password_template_outcomes scenario.svc
             spec_model.str (scenario.at_time 110)
             (@create_email_token scenario.svc "b@x.com" 101) "http://host/"
             scenario.confirmed))) "b@x.com"); vm_compute; reflexivity.
  - apply (proj2 (proj2 (proj2 (@reset_password_template_outcomes scenario.svc
             spec_model.str (scenario.at_time 110) scenario.reset_token "http://host/"
             scenario.confirmed))) "a@x.com" 0
            (User.set_confirmed true
               (User.mk 1 "alice" "a@x.com" (hasher.hash 7 "secret1")
                  (Some "https://www.gravatar.com/avatar/a@x.com") 100 None false)));
      vm_compute; reflexivity.
Defined.

(** ** What a successful reset changes *)

(** X4. A [reset_password] that succeeds rewrites the password of the row of
    the token's subject with the hash of the new password and nothing else:
    the stored refresh token, the confirmation, every other row and the
    queue of tasks are as before. *)
Theorem reset_password_success_effect `{!AuthService} (str : Exception → string)
    (env : Env) (token new_password confirm_password : string) (w w' : World)
    (r : routes_auth.Message) :
  routes_auth.reset_password str env token new_password confirm_password w = (Ok r, w') →
  ∃ email i u u',
    get_email_from_token token (utcnow env) = Ok email ∧
    repository_users.first_by_email email (users w) = Some (i, u) ∧
    repository_users.first_by_email email (users w') = Some (i, u') ∧
    User.password u' = get_password_hash (urandom env) new_password ∧
    User.refresh_token u' = User.refresh_token u ∧
    User.confirmed u' = User.confirmed u ∧
    identity u' = identity u ∧
    length (users w') = length (users w) ∧
    (∀ j, j ≠ i → users w' !! j = users w !! j) ∧
    background_tasks w' = background_tasks w.
Proof.
  intros (_ & email & i & u & Hdec & Hfind & ->)%reset_password_Ok_inv.
  exists email, i, u,
    (User.set_password (get_password_hash (urandom env) new_password) u).
  cbn [users background_tasks]. split_and!; try done.
  - by apply first_by_email_alter.
  - by rewrite length_alter.
  - intros j Hj. by rewrite list_lookup_alter_ne.
Qed.

(** Alice is logged in and resets her password: her refresh token stays. *)
Lemma reset_password_success_effect_witness :
  ∃ i u',
    repository_users.first_by_email "a@x.com"
      (users (snd (@routes_auth.reset_password scenario.svc spec_model.str
                     (scenario.at_time 110) scenario.reset_token "secret2" "secret2"
                     scenario.logged_in))) = Some (i, u') ∧
    User.password u' = hasher.hash 7 "secret2" ∧
    User.refresh_token u' = Some scenario.first_refresh_token.
Proof.
  destruct (@reset_password_success_effect scenario.svc spec_model.str
              (scenario.at_time 110) scenario.reset_token "secret2" "secret2"
              scenario.logged_in
              (snd (@routes_auth.reset_password scenario.svc spec_model.str
                      (scenario.at_time 110) scenario.reset_token "secret2" "secret2"
                      scenario.logged_in))
              password_reset_done)
    as (email & i & u & u' & Hdec & Hfind & Hfind' & Hpw & Htok & _).
  - vm_compute. reflexivity.
  - assert (email = "a@x.com") as ->.
    { vm_compute in Hdec. congruence. }
    exists i, u'. split; [exact Hfind'|]. split; [exact Hpw|].
    rewrite Htok. vm_compute in Hfind. by injection Hfind as <- <-.
Defined.

(** ** Refresh: the edges *)

(** X5. [refresh_token] with a token the decoder refuses raises the
    decoder's exception, and with a token whose subject has no row it ends in
    an [AttributeError]; in both cases the state is untouched. *)
Theorem refresh_token_edges `{!AuthService} (env : Env) (token : string) (w : World) :
  (∀ e, decode_refresh_token token (utcnow env) = Raise e →
     routes_auth.refresh_token env token w = (Raise e, w)) ∧
  (∀ email, decode_refresh_token token (utcnow env) = Ok email →
     repository_users.first_by_email email (users w) = None →
     routes_auth.refresh_token env token w
       = (Raise (AttributeError "'NoneType' object has no attribute 'refresh_token'"), w)).
Proof.
  split.
  - intros e Hdec. route. by given Hdec.
  - intros email Hdec Hfind. route. given Hdec. by given Hfind.
Qed.

(** Something that is no token, and a good refresh token of an e-mail that
    never registered. *)
Lemma refresh_token_edges_witness :
  @routes_auth.refresh_token scenario.svc (scenario.at_time 104) "invalid_refresh_token"
     scenario.logged_in
    = (Raise (HTTPException 401 "Could not validate credentials"), scenario.logged_in) ∧
  @routes_auth.refresh_token scenario.svc (scenario.at_time 104)
     (@create_refresh_token scenario.svc "b@x.com" 103) scenario.logged_in
    = (Raise (AttributeError "'NoneType' object has no attribute 'refresh_token'"),
       scenario.logged_in).
Proof.
  split.
  - apply (proj1 (@refresh_token_edges scenario.svc (scenario.at_time 104)
             "invalid_refresh_token" scenario.logged_in)). vm_compute. reflexivity.
  - apply (proj2 (@refresh_token_edges scenario.svc (scenario.at_time 104)
             (@create_refresh_token scenario.svc "b@x.com" 103) scenario.logged_in)
             "b@x.com"); vm_compute; reflexivity.
Defined.

(** ** Login, then refresh *)

(** X6. The refresh token a [login] returned is accepted by [refresh_token]
    as long as it decodes to the user: the call returns a new pair made at
    its own clock and stores the new refresh token. *)
Theorem login_then_refresh `{!AuthService} (env env' : Env)
    (body : OAuth2PasswordRequestForm.t) (w w1 : World) (resp : TokenModel.t) :
  routes_auth.login env body w = (Ok resp, w1) →
  decode_refresh_token (TokenModel.refresh_token resp) (utcnow env')
    = Ok (OAuth2PasswordRequestForm.username body) →
  ∃ w2 i u2,
    routes_auth.refresh_token env' (TokenModel.refresh_token resp) w1
      = (Ok (TokenModel.mk
               (create_access_token (OAuth2PasswordRequestForm.username body) (utcnow env'))
               (create_refresh_token (OAuth2PasswordRequestForm.username body) (utcnow env'))
               "bearer"), w2) ∧
    repository_users.first_by_email (OAuth2PasswordRequestForm.username body) (users w2)
      = Some (i, u2) ∧
    User.refresh_token u2
      = Some (create_refresh_token (OAuth2PasswordRequestForm.username body) (utcnow env')).
Proof.
  intros (i & u & Hfind & -> & ->)%login_Ok_inv Hdec.
  pose proof (first_by_email_email _ _ _ _ Hfind) as He. rewrite He in *.
  set (email := OAuth2PasswordRequestForm.username body) in *.
  set (tok := create_refresh_token email (utcnow env)) in *.
  assert (Hfind1 : repository_users.first_by_email email
            (alter (User.set_refresh_token (Some tok)) i (users w))
            = Some (i, User.set_refresh_token (Some tok) u))
    by by apply first_by_email_alter.
  eexists _, i, _. split_and!.
  - apply (refresh_token_match env' tok email i (User.set_refresh_token (Some tok) u)
             {| users := alter (User.set_refresh_token (Some tok)) i (users w);
                background_tasks := background_tasks w |}); done.
  - cbn [users]. by apply first_by_email_alter.
  - done.
Qed.

(** Alice logs in at 103 and refreshes at 104. *)
Lemma login_then_refresh_witness :
  ∃ w2 i u2,
    @routes_auth.refresh_token scenario.svc (scenario.at_time 104)
       scenario.first_refresh_token scenario.logged_in
      = (Ok (TokenModel.mk (@create_access_token scenario.svc "a@x.com" 104)
               (@create_refresh_token scenario.svc "a@x.com" 104) "bearer"), w2) ∧
    repository_users.first_by_email "a@x.com" (users w2) = Some (i, u2) ∧
    User.refresh_token u2 = Some (@create_refresh_token scenario.svc "a@x.com" 104).
Proof.
  apply (@login_then_refresh scenario.svc (scenario.at_time 103) (scenario.at_time 104)
           scenario.alice_login scenario.confirmed scenario.logged_in
           (TokenModel.mk (@create_access_token scenario.svc "a@x.com" 103)
              scenario.first_refresh_token "bearer")); vm_compute; reflexivity.
Defined.

(** ** The avatar *)

(** X7. [update_avatar] of a registered e-mail stores the address in the
    row of that e-mail and returns the row as it is now, every other column
    and every other row being as before; for an e-mail that is not
    registered it ends in an [AttributeError] and changes nothing. *)
Theorem update_avatar_outcomes (email url : string) (w : World) :
  (∀ i u, repository_users.first_by_email email (users w) = Some (i, u) →
     ∃ w',
       repository_users.update_avatar email url w
         = (Ok (Some (i, User.set_avatar (Some url) u)), w') ∧
       repository_users.first_by_email email (users w')
         = Some (i, User.set_avatar (Some url) u) ∧
       (∀ j, j ≠ i → users w' !! j = users w !! j) ∧
       background_tasks w' = background_tasks w) ∧
  (repository_users.first_by_email email (users w) = None →
     repository_users.update_avatar email url w
       = (Raise (AttributeError "'NoneType' object has no attribute 'avatar'"), w)).
Proof.
  split.
  - intros i u Hfind.
    assert (Hfind' : repository_users.first_by_email email
              (alter (User.set_avatar (Some url)) i (users w))
              = Some (i, User.set_avatar (Some url) u))
      by by apply first_by_email_alter.
    eexists. split_and!.
    + unfold repository_users.update_avatar. route. given Hfind.
      cbn [users]. by rewrite Hfind'.
    + done.
    + intros j Hj. cbn [users]. by rewrite list_lookup_alter_ne.
    + done.
  - intros Hfind. unfold repository_users.update_avatar. route. by given Hfind.
Qed.

Lemma update_avatar_outcomes_witness :
  (∃ w', repository_users.update_avatar "a@x.com" "https://img/a.png" scenario.confirmed
           = (Ok (Some (0, User.mk 1 "alice" "a@x.com" (hasher.hash 7 "secret1")
                             (Some "https://img/a.png") 100 None true)), w')) ∧
  repository_users.update_avatar "b@x.com" "https://img/b.png" scenario.confirmed
    = (Raise (AttributeError "'NoneType' object has no attribute 'avatar'"),
       scenario.confirmed).
Proof.
  split.
  - destruct (proj1 (update_avatar_outcomes "a@x.com" "https://img/a.png"
                       scenario.confirmed) 0
                (User.mk 1 "alice" "a@x.com" (hasher.hash 7 "secret1")
                   (Some "https://www.gravatar.com/avatar/a@x.com") 100 None true))
      as (w' & Hrun & _).
    + vm_compute. reflexivity.
    + exists w'. exact Hrun.
  - apply (proj2 (update_avatar_outcomes "b@x.com" "https://img/b.png"
                    scenario.confirmed)). vm_compute. reflexivity.
Defined.

(** ** From registration to the first login *)

Section lifecycle.
Context `{!AuthService}.
Variable get_image : string → option string.

(** [signup], case by case. *)
Lemma signup_cases (env : Env) (body : UserModel.t) (base_url : string) (w : World) :
  routes_auth.signup get_image env body base_url w =
    match repository_users.first_by_email (UserModel.email body) (users w) with
    | Some _ => (Raise taxonomy.DuplicateEmail, w)
    | None =>
      let new_user :=
        User.mk (repository_users.next_id (users w)) (UserModel.username body)
          (UserModel.email body)
          (get_password_hash (urandom env) (UserModel.password body))
          (get_image (UserModel.email body)) (utcnow env) None false in
      (Ok {| routes_auth.user := new_user;
             routes_auth.detail :=
               "User successfully created. Check your email for confirmation." |},
       {| users := users w ++ [new_user];
          background_tasks :=
            background_tasks w ++
            [Build_Task fn_send_verification_email (UserModel.email body)
               (UserModel.username body) base_url] |})
    end.
Proof.
  route. by destruct (repository_users.first_by_email _ (users w)) as [[i u]|].
Qed.

(** [login], when the row is there, confirmed, and the password verifies. *)
Lemma login_success (env : Env) (body : OAuth2PasswordRequestForm.t) (w : World)
    (i : nat) (u : User.t) :
  repository_users.first_by_email (OAuth2PasswordRequestForm.username body) (users w)
    = Some (i, u) →
  User.confirmed u = true →
  verify_password (OAuth2PasswordRequestForm.password body) (User.password u) = true →
  routes_auth.login env body w =
    (Ok (TokenModel.mk (create_access_token (User.email u) (utcnow env))
           (create_refresh_token (User.email u) (utcnow env)) "bearer"),
     {| users := alter (User.set_refresh_token
                          (Some (create_refresh_token (User.email u) (utcnow env))))
                   i (users w);
        background_tasks := background_tasks w |}).
Proof. intros Hfind Hconf Hver. route. given Hfind. by rewrite Hconf, Hver. Qed.

End lifecycle.

(** X8. An account that [signup] has just created cannot log in, whatever
    password is presented: [login] refuses with "Email not confirmed" and
    leaves the state alone. *)
Theorem fresh_account_cannot_login `{!AuthService} (get_image : string → option string)
    (env env' : Env) (body : UserModel.t) (base_url password : string) (w w1 : World)
    (resp : routes_auth.SignupResponse) :
  routes_auth.signup get_image env body base_url w = (Ok resp, w1) →
  routes_auth.login env' (OAuth2PasswordRequestForm.mk (UserModel.email body) password) w1
    = (Raise taxonomy.EmailNotConfirmed, w1).
Proof.
  rewrite signup_cases.
  destruct (repository_users.first_by_email _ (users w)) as [[i u]|] eqn:Hfind;
    [discriminate|].
  intros [= _ <-]. route. cbn [users OAuth2PasswordRequestForm.username].
  by rewrite (first_by_email_snoc _ _ _ Hfind).
Qed.

Lemma fresh_account_cannot_login_witness :
  @routes_auth.login scenario.svc (scenario.at_time 101)
     (OAuth2PasswordRequestForm.mk "a@x.com" "secret1") scenario.registered
    = (Raise taxonomy.EmailNotConfirmed, scenario.registered).
Proof.
  eapply (@fresh_account_cannot_login scenario.svc spec_model.get_image
            (scenario.at_time 100) (scenario.at_time 101) scenario.alice "http://host/"
            "secret1" scenario.empty scenario.registered).
  vm_compute. reflexivity.
Defined.

(** X9. The confirmation flow: [signup] queues an e-mail to the new address;
    presenting the token of that e-mail to [confirmed_email], while it
    decodes to the address, confirms the account, after which [login] with
    the registered password succeeds.  The hasher is taken to verify what it
    hashed. *)
Theorem confirmation_flow `{!AuthService} (get_image : string → option string)
    (env env_confirm env_login : Env) (t_mail : N) (body : UserModel.t)
    (base_url : string) (w w1 : World) (resp : routes_auth.SignupResponse) :
  hasher_sound →
  routes_auth.signup get_image env body base_url w = (Ok resp, w1) →
  get_email_from_token (create_email_token (UserModel.email body) t_mail)
    (utcnow env_confirm) = Ok (UserModel.email body) →
  ∃ task w2 w3,
    last (background_tasks w1) = Some task ∧
    services_email.recipients (services_email.run_task t_mail task)
      = [UserModel.email body] ∧
    routes_auth.confirmed_email env_confirm
      (services_email.body_token (services_email.run_task t_mail task)) w1
      = (Ok email_confirmed, w2) ∧
    routes_auth.login env_login
      (OAuth2PasswordRequestForm.mk (UserModel.email body) (UserModel.password body)) w2
      = (Ok (TokenModel.mk
               (create_access_token (UserModel.email body) (utcnow env_login))
               (create_refresh_token (UserModel.email body) (utcnow env_login))
               "bearer"), w3).
Proof.
  intros Hsound Hsignup Hdec. rewrite signup_cases in Hsignup.
  destruct (repository_users.first_by_email _ (users w)) as [[i u]|] eqn:Hfind;
    [discriminate|].
  cbv zeta in Hsignup. injection Hsignup as _ <-.
  set (new_user := User.mk _ _ _ _ _ _ _ _).
  assert (Hnew : repository_users.first_by_email (UserModel.email body)
            (users w ++ [new_user]) = Some (length (users w), new_user))
    by by apply first_by_email_snoc.
  eexists _, _, _. cbn [background_tasks]. split_and!.
  - by rewrite last_snoc.
  - done.
  - rewrite confirmed_email_cases.
    cbn [services_email.run_task task_fn task_email services_email.body_token
           services_email.send_verification_email].
    rewrite Hdec. cbn [users]. rewrite Hnew. done.
  - cbn [users background_tasks].
    rewrite (login_success env_login _ _ (length (users w))
               (User.set_confirmed true new_user)).
    + done.
    + cbn [users OAuth2PasswordRequestForm.username]. by apply first_by_email_alter.
    + done.
    + apply Hsound.
Qed.

(** The hasher of the model verifies what it hashed. *)
Lemma spec_model_hasher_sound (cfg : spec_model.Config) :
  @hasher_sound (spec_model.auth_service cfg).
Proof. intros salt plaintext. apply verify_hash. Qed.

(** Alice registers at 100, her e-mail goes out at 101, she confirms at 102
    and logs in at 103. *)
Lemma confirmation_flow_witness :
  ∃ task w2 w3,
    last (background_tasks scenario.registered) = Some task ∧
    services_email.recipients (@services_email.run_task scenario.svc 101 task)
      = ["a@x.com"] ∧
    @routes_auth.confirmed_email scenario.svc (scenario.at_time 102)
      (services_email.body_token (@services_email.run_task scenario.svc 101 task))
      scenario.registered = (Ok email_confirmed, w2) ∧
    @routes_auth.login scenario.svc (scenario.at_time 103)
      (OAuth2PasswordRequestForm.mk "a@x.com" "secret1") w2
      = (Ok (TokenModel.mk (@create_access_token scenario.svc "a@x.com" 103)
               (@create_refresh_token scenario.svc "a@x.com" 103) "bearer"), w3).
Proof.
  apply (@confirmation_flow scenario.svc spec_model.get_image (scenario.at_time 100)
           (scenario.at_time 102) (scenario.at_time 103) 101 scenario.alice
           "http://host/" scenario.empty scenario.registered
           {| routes_auth.user :=
                User.mk 1 "alice" "a@x.com" (hasher.hash 7 "secret1")
                  (Some "https://www.gravatar.com/avatar/a@x.com") 100 None false;
              routes_auth.detail :=
                "User successfully created. Check your email for confirmation." |}).
  - apply spec_model_hasher_sound.
  - vm_compute. reflexivity.
  - vm_compute. reflexivity.
Defined.

(** X10. The reset flow: for a registered, confirmed e-mail
    [forgot_password] queues an e-mail to the address; presenting the token
    of that e-mail to [reset_password] with matching fields, while it decodes
    to the address, succeeds, after which [login] with the new password
    succeeds.  The hasher is taken to verify what it hashed. *)
Theorem reset_flow `{!AuthService} (str : Exception → string)
    (env_reset env_login : Env) (t_mail : N) (body : RequestEmail.t)
    (base_url new_password : string) (w : World) (i : nat) (u : User.t) :
  hasher_sound →
  repository_users.first_by_email (RequestEmail.email body) (users w) = Some (i, u) →
  User.confirmed u = true →
  get_email_from_token (create_email_token (RequestEmail.email body) t_mail)
    (utcnow env_reset) = Ok (RequestEmail.email body) →
  ∃ task w2 w3,
    last (background_tasks (snd (routes_auth.forgot_password body base_url w)))
      = Some task ∧
    services_email.recipients (services_email.run_task t_mail task)
      = [RequestEmail.email body] ∧
    routes_auth.reset_password str env_reset
      (services_email.body_token (services_email.run_task t_mail task))
      new_password new_password (snd (routes_auth.forgot_password body base_url w))
      = (Ok password_reset_done, w2) ∧
    routes_auth.login env_login
      (OAuth2PasswordRequestForm.mk (RequestEmail.email body) new_password) w2
      = (Ok (TokenModel.mk
               (create_access_token (RequestEmail.email body) (utcnow env_login))
               (create_refresh_token (RequestEmail.email body) (utcnow env_login))
               "bearer"), w3).
Proof.
  intros Hsound Hfind Hconf Hdec.
  pose proof (first_by_email_email _ _ _ _ Hfind) as He.
  assert (Hforgot : routes_auth.forgot_password body base_url w
            = (Ok {| routes_auth.message := "Check your email for reset password." |},
               {| users := users w;
                  background_tasks :=
                    background_tasks w ++
                    [Build_Task fn_send_reset_email (User.email u) (User.username u)
                       base_url] |})).
  { route. by given Hfind. }
  rewrite Hforgot. cbn [snd background_tasks].
  eexists _, _, _. split_and!.
  - by rewrite last_snoc.
  - cbn. by rewrite He.
  - rewrite reset_password_cases.
    rewrite bool_decide_eq_false_2 by (intros Hn; by apply Hn).
    cbn [services_email.run_task task_fn task_email services_email.body_token
           services_email.send_reset_email].
    rewrite He, Hdec. cbn [users]. by rewrite Hfind.
  - set (hashed := get_password_hash (urandom env_reset) new_password).
    rewrite (login_success env_login _ _ i (User.set_password hashed u)).
    + cbn [User.email User.set_password]. by rewrite He.
    + cbn [users OAuth2PasswordRequestForm.username]. by apply first_by_email_alter.
    + done.
    + apply Hsound.
Qed.

(** Alice forgets her password, her reset e-mail goes out at 101, she sets
    a new password at 110 and logs in with it at 111. *)
Lemma reset_flow_witness :
  ∃ task w2 w3,
    last (background_tasks
            (snd (routes_auth.forgot_password (RequestEmail.mk "a@x.com") "http://host/"
                    scenario.confirmed))) = Some task ∧
    services_email.recipients (@services_email.run_task scenario.svc 101 task)
      = ["a@x.com"] ∧
    @routes_auth.reset_password scenario.svc spec_model.str (scenario.at_time 110)
      (services_email.body_token (@services_email.run_task scenario.svc 101 task))
      "secret2" "secret2"
      (snd (routes_auth.forgot_password (RequestEmail.mk "a@x.com") "http://host/"
              scenario.confirmed))
      = (Ok password_reset_done, w2) ∧
    @routes_auth.login scenario.svc (scenario.at_time 111)
      (OAuth2PasswordRequestForm.mk "a@x.com" "secret2") w2
      = (Ok (TokenModel.mk (@create_access_token scenario.svc "a@x.com" 111)
               (@create_refresh_token scenario.svc "a@x.com" 111) "bearer"), w3).
Proof.
  apply (@reset_flow scenario.svc spec_model.str (scenario.at_time 110)
           (scenario.at_time 111) 101 (RequestEmail.mk "a@x.com") "http://host/"
           "secret2" scenario.confirmed 0
           (User.mk 1 "alice" "a@x.com" (hasher.hash 7 "secret1")
              (Some "https://www.gravatar.com/avatar/a@x.com") 100 None true)).
  - apply spec_model_hasher_sound.
  - vm_compute. reflexivity.
  - reflexivity.
  - vm_compute. reflexivity.
Defined.

(** ** What no run of the routes does to the table of users *)

Lemma next_id_above (us : list User.t) (u : User.t) :
  u ∈ us → (User.id u < repository_users.next_id us)%Z.
Proof.
  unfold repository_users.next_id. induction 1 as [u us|u v us _ IH]; cbn [fmap list_fmap foldr].
  - lia.
  - change (list_fmap _ _ User.id us) with (User.id <$> us) in *. lia.
Qed.

Lemma write_identity (wr : Write) (u : User.t) : identity (write wr u) = identity u.
Proof. by destruct wr. Qed.

Section invariants.
Context `{!AuthService}.
Variable get_image : string → option string.
Variable str : Exception → string.

(** Every request is one step on the table, with an assignment of its own
    route if any. *)
Lemma serve_step (env : Env) (r : Request) (w : World) :
  Step (writes_of r) (users w) (users (serve get_image str env r w)).
Proof.
  destruct r as [body base_url|body|token|token|body base_url|body base_url|token np cp];
    cbn [serve].
  - rewrite signup_cases.
    destruct (repository_users.first_by_email (UserModel.email body) (users w))
      as [[i u]|] eqn:Hfind; [constructor|].
    cbn [snd users]. by apply step_insert.
  - route.
    destruct (repository_users.first_by_email _ (users w)) as [[i u]|] eqn:Hfind;
      [|constructor].
    destruct (User.confirmed u); [|constructor]. cbn [negb].
    destruct (verify_password _ _); [|constructor]. cbn [negb snd users].
    apply (step_write _ _ (WriteToken (Some _))); [done|].
    by eapply lookup_lt_Some, first_by_email_lookup.
  - route.
    destruct (decode_refresh_token token (utcnow env)) as [email|]; [|constructor].
    cbv beta iota zeta.
    destruct (repository_users.first_by_email email (users w)) as [[i u]|] eqn:Hfind;
      [|constructor].
    case_bool_decide; cbn [snd users];
      apply (step_write _ _ (WriteToken _)); try done;
      by eapply lookup_lt_Some, first_by_email_lookup.
  - rewrite confirmed_email_cases.
    destruct (get_email_from_token token (utcnow env)) as [email|]; [|constructor].
    destruct (repository_users.first_by_email email (users w)) as [[i u]|] eqn:Hfind;
      [|constructor].
    destruct (User.confirmed u); [constructor|]. cbn [snd users].
    apply (step_write _ _ WriteConfirmed); [done|].
    by eapply lookup_lt_Some, first_by_email_lookup.
  - route.
    destruct (repository_users.first_by_email _ (users w)) as [[i u]|]; [|constructor].
    destruct (User.confirmed u); constructor.
  - route.
    destruct (repository_users.first_by_email _ (users w)) as [[i u]|]; constructor.
  - rewrite reset_password_cases. case_bool_decide; [constructor|].
    destruct (get_email_from_token token (utcnow env)) as [email|]; [|constructor].
    destruct (repository_users.first_by_email email (users w)) as [[i u]|] eqn:Hfind;
      [|constructor].
    cbn [snd users]. apply (step_write _ _ (WritePassword _)); [done|].
    by eapply lookup_lt_Some, first_by_email_lookup.
Qed.

(** A column every allowed assignment keeps is kept by a step, row by row;
    new rows come at the end. *)
Lemma step_keeps_column {A} (proj : User.t → A) (allowed : Write → Prop)
    (us us' : list User.t) :
  (∀ wr u, allowed wr → proj (write wr u) = proj u) →
  Step allowed us us' → (proj <$> us) `prefix_of` (proj <$> us').
Proof.
  intros Hkeep [|x _ _ _ _|wr i Hwr _].
  - done.
  - rewrite fmap_app. by apply prefix_app_r.
  - rewrite (list_fmap_alter proj (write wr) id).
    + by rewrite list_alter_id.
    + apply Forall_forall. intros u _. by apply Hkeep.
Qed.

Lemma serve_all_keeps_column {A} (proj : User.t → A) (allowed : Write → Prop)
    (rs : list (Env * Request)) (w : World) :
  (∀ wr u, allowed wr → proj (write wr u) = proj u) →
  Forall (λ er, ∀ wr, writes_of er.2 wr → allowed wr) rs →
  (proj <$> users w) `prefix_of` (proj <$> users (serve_all get_image str rs w)).
Proof.
  intros Hkeep Hrs. revert w.
  induction Hrs as [|[env r] rs Hr _ IH]; intros w; [done|].
  cbn [serve_all]. etrans; [|apply IH].
  apply (step_keeps_column proj allowed); [done|].
  destruct (serve_step env r w) as [|x|wr i Hwr Hi]; [constructor|by constructor|].
  apply step_write; [|done]. by apply Hr.
Qed.

(** A step keeps e-mails and keys apart. *)
Lemma step_keeps_unique (allowed : Write → Prop) (us us' : list User.t) :
  Step allowed us us' →
  (NoDup (User.email <$> us) → NoDup (User.email <$> us')) ∧
  (NoDup (User.id <$> us) → NoDup (User.id <$> us')).
Proof.
  intros [|x Hfree Hid _ _|wr i _ _].
  - done.
  - rewrite !fmap_app. cbn [fmap list_fmap]. split; intros Hnd.
    + apply NoDup_app. split_and!; [done| |apply NoDup_singleton].
      intros e (u & -> & Hu)%list_elem_of_fmap He%list_elem_of_singleton.
      apply list_find_None in Hfree. eapply Forall_forall in Hfree; [|exact Hu].
      by apply Hfree.
    + apply NoDup_app. split_and!; [done| |apply NoDup_singleton].
      intros k (u & -> & Hu)%list_elem_of_fmap Hk%list_elem_of_singleton.
      pose proof (next_id_above us u Hu). lia.
  - rewrite (list_fmap_alter User.email (write wr) id),
      (list_fmap_alter User.id (write wr) id), !list_alter_id; try done.
    + apply Forall_forall. intros u _. by destruct wr.
    + apply Forall_forall. intros u _. by destruct wr.
Qed.

(** A step leaves every row in its place, and confirmed if it was. *)
Lemma step_keeps_confirmed (allowed : Write → Prop) (us us' : list User.t)
    (i : nat) (u : User.t) :
  Step allowed us us' → us !! i = Some u → User.confirmed u = true →
  ∃ u', us' !! i = Some u' ∧ User.confirmed u' = true.
Proof.
  intros [|x _ _ _ _|wr j _ _] Hi Hconf.
  - eauto.
  - exists u. split; [|done]. by apply lookup_app_l_Some.
  - destruct (decide (j = i)) as [->|Hne].
    + exists (write wr u). rewrite list_lookup_alter_eq, Hi. split; [done|].
      by destruct wr.
    + exists u. by rewrite list_lookup_alter_ne.
Qed.

End invariants.

(** X11. No run of the routes makes two rows share an e-mail: e-mails that
    are pairwise different at the start are so at the end. *)
Theorem emails_stay_unique `{!AuthService} (get_image : string → option string)
    (str : Exception → string) (rs : list (Env * Request)) (w : World) :
  NoDup (User.email <$> users w) →
  NoDup (User.email <$> users (serve_all get_image str rs w)).
Proof.
  revert w. induction rs as [|[env r] rs IH]; intros w Hnd; [done|].
  cbn [serve_all]. apply IH.
  by apply (step_keeps_unique _ _ _ (serve_step get_image str env r w)).
Qed.

(** X12. No run of the routes removes a row or changes the key, the name,
    the e-mail, the avatar or the creation time of one: these columns of the
    rows at the start are, in order, the first ones at the end. *)
Theorem accounts_are_permanent `{!AuthService} (get_image : string → option string)
    (str : Exception → string) (rs : list (Env * Request)) (w : World) :
  (identity <$> users w) `prefix_of` (identity <$> users (serve_all get_image str rs w)).
Proof.
  apply (serve_all_keeps_column get_image str identity (λ _, True)).
  - intros wr u _. apply write_identity.
  - by apply Forall_forall.
Qed.

(** X13. A confirmed account stays confirmed: no run of the routes sets
    [confirmed] back. *)
Theorem confirmed_stays_confirmed `{!AuthService} (get_image : string → option string)
    (str : Exception → string) (rs : list (Env * Request)) (w : World)
    (i : nat) (u : User.t) :
  users w !! i = Some u → User.confirmed u = true →
  ∃ u', users (serve_all get_image str rs w) !! i = Some u' ∧ User.confirmed u' = true.
Proof.
  revert w u. induction rs as [|[env r] rs IH]; intros w u Hi Hconf; [eauto|].
  cbn [serve_all].
  destruct (step_keeps_confirmed _ _ _ i u (serve_step get_image str env r w) Hi Hconf)
    as (u1 & Hi1 & Hconf1).
  by apply (IH _ u1).
Qed.

(** X14. Only [reset_password] changes a stored password: along a run
    without it, the password column of the rows at the start is unchanged. *)
Theorem passwords_change_by_reset_only `{!AuthService}
    (get_image : string → option string) (str : Exception → string)
    (rs : list (Env * Request)) (w : World) :
  Forall (λ er, is_reset_password er.2 = false) rs →
  (User.password <$> users w)
    `prefix_of` (User.password <$> users (serve_all get_image str rs w)).
Proof.
  intros Hrs.
  apply (serve_all_keeps_column get_image str User.password
           (λ wr, ∀ hashed, wr ≠ WritePassword hashed)).
  - intros [v| |hashed] u Hwr; [done..|]. by destruct (Hwr hashed).
  - apply (Forall_impl _ _ _ Hrs). intros [env r] Hr wr Hwr hashed ->.
    by destruct r.
Qed.

(** The run from the empty table, with its second registration of Alice's
    e-mail, ends with two rows of different e-mails. *)
Lemma emails_stay_unique_witness :
  NoDup (User.email <$>
           users (@serve_all scenario.svc spec_model.get_image spec_model.str
                    runs_scenario.from_empty scenario.empty)) ∧
  length (users (@serve_all scenario.svc spec_model.get_image spec_model.str
                   runs_scenario.from_empty scenario.empty)) = 2.
Proof.
  split; [|vm_compute; reflexivity].
  apply (@emails_stay_unique scenario.svc spec_model.get_image spec_model.str
           runs_scenario.from_empty scenario.empty).
  apply NoDup_nil_2.
Defined.

(** Alice, confirmed, is still confirmed after logins, refreshes and
    e-mails. *)
Lemma confirmed_stays_confirmed_witness :
  ∃ u',
    users (@serve_all scenario.svc spec_model.get_image spec_model.str
             runs_scenario.after_confirmation scenario.confirmed) !! 0 = Some u' ∧
    User.confirmed u' = true.
Proof.
  apply (@confirmed_stays_confirmed scenario.svc spec_model.get_image spec_model.str
           runs_scenario.after_confirmation scenario.confirmed 0
           (User.mk 1 "alice" "a@x.com" (hasher.hash 7 "secret1")
              (Some "https://www.gravatar.com/avatar/a@x.com") 100 None true)).
  - vm_compute. reflexivity.
  - reflexivity.
Defined.

(** The same run has no reset in it and leaves Alice's password alone. *)
Lemma passwords_change_by_reset_only_witness :
  (User.password <$> users scenario.confirmed)
    `prefix_of`
  (User.password <$>
     users (@serve_all scenario.svc spec_model.get_image spec_model.str
              runs_scenario.after_confirmation scenario.confirmed)).
Proof.
  apply (@passwords_change_by_reset_only scenario.svc spec_model.get_image
           spec_model.str runs_scenario.after_confirmation scenario.confirmed).
  repeat constructor.
Defined.

(** * The contacts, by key *)

Lemma get_contact_by_id_Some (contact_id : Z) (user : User.t) (cs : list Contact.t)
    (i : nat) (c : Contact.t) :
  repository_contacts.get_contact_by_id contact_id user cs = Some (i, c) →
  cs !! i = Some c ∧ owned_by user c ∧ Contact.id c = contact_id.
Proof.
  unfold repository_contacts.get_contact_by_id.
  by intros (? & [? ?] & _)%list_find_Some.
Qed.

(** Rows of one key are one row when keys are unique. *)
Lemma unique_key_row (cs : list Contact.t) (c1 c2 : Contact.t) :
  NoDup (Contact.id <$> cs) → c1 ∈ cs → c2 ∈ cs → Contact.id c1 = Contact.id c2 →
  c1 = c2.
Proof.
  intros Hnd (i & Hi)%list_elem_of_lookup (j & Hj)%list_elem_of_lookup Hid.
  assert (i = j) as ->; [|congruence].
  apply (NoDup_lookup _ i j (Contact.id c1) Hnd).
  - by rewrite list_lookup_fmap, Hi.
  - by rewrite list_lookup_fmap, Hj, Hid.
Qed.

(** Rewriting or deleting a row a filter drops does not change what the
    filter keeps. *)
Lemma filter_insert_dropped {A} (P : A → Prop) `{!∀ x, Decision (P x)} (l : list A)
    (i : nat) (x y : A) :
  l !! i = Some x → ¬ P x → ¬ P y → filter P (<[i := y]> l) = filter P l.
Proof.
  revert i. induction l as [|z l IH]; intros [|i] Hi Hx Hy; try done.
  - injection Hi as ->. cbn [insert list_insert].
    by rewrite !filter_cons, !decide_False.
  - change (<[S i := y]> (z :: l)) with (z :: <[i := y]> l).
    rewrite !filter_cons. by rewrite (IH i Hi Hx Hy).
Qed.

Lemma filter_delete_dropped {A} (P : A → Prop) `{!∀ x, Decision (P x)} (l : list A)
    (i : nat) (x : A) :
  l !! i = Some x → ¬ P x → filter P (delete i l) = filter P l.
Proof.
  revert i. induction l as [|z l IH]; intros [|i] Hi Hx; try done.
  - injection Hi as ->. cbn [delete list_delete]. by rewrite filter_cons, decide_False.
  - change (delete (S i) (z :: l)) with (z :: delete i l).
    rewrite !filter_cons. by rewrite (IH i Hi Hx).
Qed.

Lemma elem_of_delete_unique {A} (l : list A) (i : nat) (x d : A) :
  NoDup l → l !! i = Some x → d ∈ delete i l ↔ d ∈ l ∧ d ≠ x.
Proof.
  intros Hnd Hi. split.
  - intros Hd. split; [by eapply list_elem_of_delete_inv|]. intros ->.
    apply list_elem_of_lookup in Hd as [j Hj].
    destruct (decide (j < i)) as [Hlt|Hge].
    + rewrite list_lookup_delete_lt in Hj by done.
      pose proof (NoDup_lookup _ _ _ _ Hnd Hi Hj). lia.
    + rewrite list_lookup_delete_ge in Hj by lia.
      pose proof (NoDup_lookup _ _ _ _ Hnd Hi Hj). lia.
  - intros [(j & Hj)%list_elem_of_lookup Hne]. apply list_elem_of_lookup.
    destruct (decide (j < i)) as [Hlt|Hge].
    + exists j. by rewrite list_lookup_delete_lt.
    + assert (j ≠ i) by (intros ->; congruence).
      exists (pred j). rewrite list_lookup_delete_ge by lia.
      by replace (S (pred j)) with j by lia.
Qed.

Lemma NoDup_insert_fresh {A} (l : list A) (i : nat) (x : A) :
  NoDup l → x ∉ l → NoDup (<[i := x]> l).
Proof.
  intros Hnd Hx. apply NoDup_alt. intros j k y Hj Hk.
  apply list_lookup_insert_Some in Hj as [(Hij & Hxy & _)|[Hij Hj]];
    apply list_lookup_insert_Some in Hk as [(Hik & Hxy' & _)|[Hik Hk]].
  - congruence.
  - destruct Hx. rewrite Hxy. by eapply list_elem_of_lookup_2.
  - destruct Hx. rewrite Hxy'. by eapply list_elem_of_lookup_2.
  - by eapply NoDup_lookup.
Qed.

(** The listener touches nothing but [favorites]. *)
Lemma updated_favorites_columns (c : Contact.t) :
  Contact.id (models.updated_favorites c) = Contact.id c ∧
  Contact.email (models.updated_favorites c) = Contact.email c ∧
  Contact.user_id (models.updated_favorites c) = Contact.user_id c.
Proof. unfold models.updated_favorites. by case_bool_decide. Qed.

(** [create], by whether the e-mail is in the table. *)
Lemma create_cases (alloc : list Contact.t → Z) (body : ContactModel.t) (user : User.t)
    (cs : list Contact.t) :
  ((ContactModel.email body ∈ (Contact.email <$> cs)) ∧
   repository_contacts.create alloc body user cs = (Raises IntegrityError, cs)) ∨
  ((ContactModel.email body ∉ (Contact.email <$> cs)) ∧
   ∃ contact,
     repository_contacts.create alloc body user cs
       = (Returns contact, (cs ++ [contact])%list) ∧
     Contact.id contact = alloc cs ∧
     Contact.email contact = ContactModel.email body ∧
     owned_by user contact ∧
     Contact.favorites contact =
       if bool_decide (ContactModel.first_name body ∈ models.family) then true
       else ContactModel.favorites body).
Proof.
  unfold repository_contacts.create.
  set (row := Contact.mk _ _ _ _ _ _ _ _ _ _ _).
  destruct (updated_favorites_columns row) as (Hid & Hemail & Hown).
  rewrite Hemail. cbn [row Contact.email].
  case_bool_decide as Htaken; [by left|right]. split; [done|].
  eexists. split_and!; [done..|].
  unfold models.updated_favorites. cbn [row Contact.first_name].
  by case_bool_decide.
Qed.

(** [update], when it returns a contact: the row it found, and what is in
    its place now. *)
Lemma update_Returns_inv (now : N) (contact_id : Z) (body : ContactModel.t)
    (user : User.t) (cs cs' : list Contact.t) (stored : Contact.t) :
  repository_contacts.update now contact_id body user cs = (Returns (Some stored), cs') →
  ∃ i c,
    repository_contacts.get_contact_by_id contact_id user cs = Some (i, c) ∧
    cs' = <[i := stored]> cs ∧
    (stored = repository_contacts.assign body c ∨
     stored = Contact.set_updated_at now (repository_contacts.assign body c)) ∧
    (Contact.email stored = Contact.email c ∨
     Contact.email stored ∉ Contact.email <$> cs).
Proof.
  unfold repository_contacts.update.
  destruct (repository_contacts.get_contact_by_id contact_id user cs)
    as [[i c]|] eqn:Hget; [|discriminate].
  case_bool_decide as Hsame.
  - destruct Hsame as [Hsame _].
    intros [= <- <-]. exists i, c. split_and!; [done| |by left|by left].
    apply get_contact_by_id_Some in Hget as (Hi & _). by rewrite list_insert_id.
  - case_bool_decide as Htaken; [discriminate|].
    intros [= <- <-]. exists i, c. split_and!; [done..|by right|].
    cbn [Contact.email Contact.set_updated_at repository_contacts.assign] in *.
    destruct (decide (ContactModel.email body = Contact.email c)); [by left|right].
    intros Hin. by apply Htaken.
Qed.

(** X15. A contact that [create_contact] stores is what [get_contact]
    returns to its owner under the key the insertion gave it, provided the
    e-mail is in no row yet and the database gives a key that is not in
    use. *)
Theorem create_then_get_contact (alloc : list Contact.t → Z) (body : ContactModel.t)
    (user : User.t) (cs : list Contact.t) :
  alloc_fresh alloc →
  ContactModel.email body ∉ Contact.email <$> cs →
  ∃ contact cs',
    routes_contacts.create_contact alloc body user cs = (Returns contact, cs') ∧
    owned_by user contact ∧
    routes_contacts.get_contact (Contact.id contact) user cs' = (Returns contact, cs').
Proof.
  intros Hfresh Hfree. unfold routes_contacts.create_contact.
  destruct (create_cases alloc body user cs)
    as [[Htaken _]|(_ & contact & -> & Hid & _ & Hown & _)]; [done|].
  exists contact, (cs ++ [contact])%list. split_and!; [done..|].
  unfold routes_contacts.get_contact, repository_contacts.get_contact_by_id.
  rewrite list_find_app_r.
  - cbn [list_find]. by rewrite decide_True.
  - apply list_find_None, Forall_forall. intros c Hc [_ Hc'].
    apply (Hfresh cs). rewrite <- Hid, <- Hc'. by apply list_elem_of_fmap_2.
Qed.

Lemma next_contact_id_fresh : alloc_fresh next_contact_id.
Proof.
  intros cs (c & Hid & Hc)%list_elem_of_fmap.
  assert (Contact.id c < next_contact_id cs)%Z; [|lia].
  clear Hid. unfold next_contact_id.
  induction Hc as [c cs|c d cs _ IH]; cbn [fmap list_fmap foldr].
  - lia.
  - change (list_fmap _ _ Contact.id cs) with (Contact.id <$> cs) in *. lia.
Qed.

(** Alice adds Dora. *)
Lemma create_then_get_contact_witness :
  ∃ contact cs',
    routes_contacts.create_contact next_contact_id contacts_scenario.dora
      contacts_scenario.alice contacts_scenario.table = (Returns contact, cs') ∧
    owned_by contacts_scenario.alice contact ∧
    routes_contacts.get_contact (Contact.id contact) contacts_scenario.alice cs'
      = (Returns contact, cs').
Proof.
  apply create_then_get_contact; [apply next_contact_id_fresh|].
  apply (bool_decide_unpack _). vm_compute. exact I.
Defined.

(** X16. The listener marks a contact as favorite when it is inserted under
    one of the three family names and leaves the flag of the request
    otherwise; it does not run on [update], which stores the flag of the
    request under any name. *)
Theorem favorites_on_insert_only (alloc : list Contact.t → Z) (now : N)
    (body : ContactModel.t) (user : User.t) (cs : list Contact.t) :
  (∀ contact cs',
     repository_contacts.create alloc body user cs = (Returns contact, cs') →
     Contact.favorites contact =
       if bool_decide (ContactModel.first_name body ∈ models.family) then true
       else ContactModel.favorites body) ∧
  (∀ contact_id contact cs',
     repository_contacts.update now contact_id body user cs = (Returns (Some contact), cs') →
     Contact.favorites contact = ContactModel.favorites body).
Proof.
  split.
  - intros contact cs'.
    destruct (create_cases alloc body user cs)
      as [[_ ->]|(_ & contact' & -> & _ & _ & _ & Hfav)]; [discriminate|].
    by intros [= <- _].
  - intros contact_id contact cs' (i & c & _ & _ & [->| ->] & _)%update_Returns_inv; done.
Qed.

(** Alice's mother is a favorite from the start, whatever the request said,
    and stops being one when a request with the flag off is sent as an
    update. *)
Lemma favorites_on_insert_only_witness :
  Contact.favorites contacts_scenario.mum_row = true ∧
  ∀ contact cs',
    repository_contacts.update 2000 1 contacts_scenario.mum_moved contacts_scenario.alice
      contacts_scenario.table = (Returns (Some contact), cs') →
    Contact.favorites contact = false.
Proof.
  destruct (favorites_on_insert_only next_contact_id 2000 contacts_scenario.mum
              contacts_scenario.alice []) as (Hin & _).
  destruct (favorites_on_insert_only next_contact_id 2000 contacts_scenario.mum_moved
              contacts_scenario.alice contacts_scenario.table) as (_ & Hupd).
  split.
  - apply (Hin contacts_scenario.mum_row [contacts_scenario.mum_row]).
    vm_compute. reflexivity.
  - intros contact cs' Hrun. exact (Hupd 1%Z contact cs' Hrun).
Defined.

(** X17. Whatever a user does through [create_contact], [update_contact] or
    [remove_contact], and however it ends, the rows of the other users are,
    in order, what they were. *)
Theorem contacts_of_others_untouched (alloc : list Contact.t → Z) (now : N)
    (body : ContactModel.t) (contact_id : Z) (user : User.t) (cs : list Contact.t) :
  let others := filter (λ c, ¬ owned_by user c) in
  others (snd (routes_contacts.create_contact alloc body user cs)) = others cs ∧
  others (snd (routes_contacts.update_contact now body contact_id user cs)) = others cs ∧
  others (snd (routes_contacts.remove_contact contact_id user cs)) = others cs.
Proof.
  intros others. subst others. split_and!.
  - unfold routes_contacts.create_contact.
    destruct (create_cases alloc body user cs)
      as [[_ ->]|(_ & contact & -> & _ & _ & Hown & _)]; [done|]. cbn [snd].
    rewrite filter_app, filter_cons, decide_False, filter_nil, app_nil_r; [done|].
    by intros Hn.
  - unfold routes_contacts.update_contact.
    destruct (repository_contacts.update now contact_id body user cs)
      as [[[stored|]|e] cs'] eqn:Hupd; cbn [routes_contacts.or_not_found snd].
    + apply update_Returns_inv in Hupd as (i & c & Hget & -> & Hstored & _).
      apply get_contact_by_id_Some in Hget as (Hi & Hown & _).
      apply (filter_insert_dropped _ _ _ c); [done|by intros Hn|].
      intros Hn. apply Hn. unfold owned_by in *. by destruct Hstored as [->| ->].
    + unfold repository_contacts.update in Hupd.
      destruct (repository_contacts.get_contact_by_id contact_id user cs) as [[i c]|];
        repeat case_bool_decide; congruence.
    + unfold repository_contacts.update in Hupd.
      destruct (repository_contacts.get_contact_by_id contact_id user cs) as [[i c]|];
        repeat case_bool_decide; congruence.
  - unfold routes_contacts.remove_contact, repository_contacts.remove.
    destruct (repository_contacts.get_contact_by_id contact_id user cs)
      as [[i c]|] eqn:Hget; [|done].
    apply get_contact_by_id_Some in Hget as (Hi & Hown & _).
    cbn [routes_contacts.or_not_found snd].
    by apply (filter_delete_dropped _ _ _ c); [|intros Hn].
Qed.

(** X18. With unique keys, the key of a contact that belongs to somebody
    else is "Not Found" for [get_contact], [update_contact] and
    [remove_contact], and the table stays as it is. *)
Theorem contact_of_another_user_not_found (now : N) (body : ContactModel.t)
    (user : User.t) (cs : list Contact.t) (c : Contact.t) :
  NoDup (Contact.id <$> cs) → c ∈ cs → ¬ owned_by user c →
  routes_contacts.get_contact (Contact.id c) user cs
    = (Raises (Http (HTTPException 404 "Not Found")), cs) ∧
  routes_contacts.update_contact now body (Contact.id c) user cs
    = (Raises (Http (HTTPException 404 "Not Found")), cs) ∧
  routes_contacts.remove_contact (Contact.id c) user cs
    = (Raises (Http (HTTPException 404 "Not Found")), cs).
Proof.
  intros Hnd Hc Hother.
  assert (Hnone : repository_contacts.get_contact_by_id (Contact.id c) user cs = None).
  { apply list_find_None, Forall_forall. intros c' Hc' [Hown Hid].
    apply Hother. by rewrite <- (unique_key_row cs c' c Hnd Hc' Hc Hid). }
  unfold routes_contacts.get_contact, routes_contacts.update_contact,
    routes_contacts.remove_contact, repository_contacts.update,
    repository_contacts.remove.
  by rewrite Hnone.
Qed.

(** Bob asks for, rewrites and deletes the contact of Alice under key 1. *)
Lemma contact_of_another_user_not_found_witness :
  routes_contacts.get_contact 1 contacts_scenario.bob contacts_scenario.table
    = (Raises (Http (HTTPException 404 "Not Found")), contacts_scenario.table) ∧
  routes_contacts.update_contact 2000 contacts_scenario.dora 1 contacts_scenario.bob
    contacts_scenario.table
    = (Raises (Http (HTTPException 404 "Not Found")), contacts_scenario.table) ∧
  routes_contacts.remove_contact 1 contacts_scenario.bob contacts_scenario.table
    = (Raises (Http (HTTPException 404 "Not Found")), contacts_scenario.table).
Proof.
  apply (contact_of_another_user_not_found 2000 contacts_scenario.dora
           contacts_scenario.bob contacts_scenario.table contacts_scenario.mum_row).
  - apply (bool_decide_unpack _). vm_compute. exact I.
  - vm_compute. repeat constructor.
  - vm_compute. discriminate.
Defined.

(** X19. After [remove_contact] has returned a contact, its key is "Not
    Found" for its owner, the table is one row shorter, and the rows left
    are the other rows; keys are taken to be unique. *)
Theorem remove_then_get_contact (contact_id : Z) (user : User.t)
    (cs cs' : list Contact.t) (c : Contact.t) :
  NoDup (Contact.id <$> cs) →
  routes_contacts.remove_contact contact_id user cs = (Returns c, cs') →
  owned_by user c ∧ Contact.id c = contact_id ∧
  length cs = S (length cs') ∧
  (∀ d, d ∈ cs' ↔ d ∈ cs ∧ d ≠ c) ∧
  routes_contacts.get_contact contact_id user cs'
    = (Raises (Http (HTTPException 404 "Not Found")), cs').
Proof.
  intros Hnd. unfold routes_contacts.remove_contact, repository_contacts.remove.
  destruct (repository_contacts.get_contact_by_id contact_id user cs)
    as [[i c0]|] eqn:Hget; [|discriminate].
  intros [= <- <-]. apply get_contact_by_id_Some in Hget as (Hi & Hown & Hid).
  pose proof (elem_of_delete_unique cs i c0) as Hrows.
  split_and!; [done..| | |].
  - rewrite length_delete by eauto. apply lookup_lt_Some in Hi. lia.
  - intros d. apply Hrows; [by eapply NoDup_fmap_1|done].
  - unfold routes_contacts.get_contact.
    assert (repository_contacts.get_contact_by_id contact_id user (delete i cs) = None)
      as ->; [|done].
    apply list_find_None, Forall_forall. intros d Hd [_ Hd'].
    apply Hrows in Hd as [Hd Hne]; [|by eapply NoDup_fmap_1|done].
    apply Hne, (unique_key_row cs); [done..|by eapply list_elem_of_lookup_2|congruence].
Qed.

(** Alice deletes her contact under key 1. *)
Lemma remove_then_get_contact_witness :
  length contacts_scenario.table
    = S (length (snd (routes_contacts.remove_contact 1 contacts_scenario.alice
                        contacts_scenario.table))) ∧
  routes_contacts.get_contact 1 contacts_scenario.alice
    (snd (routes_contacts.remove_contact 1 contacts_scenario.alice
            contacts_scenario.table))
    = (Raises (Http (HTTPException 404 "Not Found")),
       snd (routes_contacts.remove_contact 1 contacts_scenario.alice
              contacts_scenario.table)).
Proof.
  destruct (remove_then_get_contact 1 contacts_scenario.alice contacts_scenario.table
              (snd (routes_contacts.remove_contact 1 contacts_scenario.alice
                      contacts_scenario.table))
              contacts_scenario.mum_row)
    as (_ & _ & Hlen & _ & Hget).
  - apply (bool_decide_unpack _). vm_compute. exact I.
  - vm_compute. reflexivity.
  - split; [exact Hlen|exact Hget].
Defined.

(** What [update] leaves in the table when it does not return a contact. *)
Lemma update_other_outcomes (now : N) (contact_id : Z) (body : ContactModel.t)
    (user : User.t) (cs cs' : list Contact.t) (r : Outcome (option Contact.t)) :
  repository_contacts.update now contact_id body user cs = (r, cs') →
  (∀ stored, r ≠ Returns (Some stored)) → cs' = cs.
Proof.
  unfold repository_contacts.update.
  destruct (repository_contacts.get_contact_by_id contact_id user cs) as [[i c]|];
    repeat case_bool_decide; intros [= <- <-] Hr; try done.
  by destruct (Hr (Contact.set_updated_at now (repository_contacts.assign body c))).
Qed.

(** X20. After [update_contact] has returned a contact, [get_contact]
    returns that same contact to its owner under the same key; it has the
    columns of the request, and the key, the owner and the creation time it
    had; the table has as many rows as before. *)
Theorem update_then_get_contact (now : N) (body : ContactModel.t) (contact_id : Z)
    (user : User.t) (cs cs' : list Contact.t) (c' : Contact.t) :
  routes_contacts.update_contact now body contact_id user cs = (Returns c', cs') →
  routes_contacts.get_contact contact_id user cs' = (Returns c', cs') ∧
  length cs' = length cs ∧
  (∃ c, routes_contacts.get_contact contact_id user cs = (Returns c, cs) ∧
        Contact.id c' = Contact.id c ∧
        Contact.user_id c' = Contact.user_id c ∧
        Contact.created_at c' = Contact.created_at c) ∧
  Contact.first_name c' = ContactModel.first_name body ∧
  Contact.last_name c' = ContactModel.last_name body ∧
  Contact.email c' = ContactModel.email body ∧
  Contact.phone c' = Some (ContactModel.phone body) ∧
  Contact.birthday c' = ContactModel.birthday body ∧
  Contact.description c' = Some (ContactModel.description body) ∧
  Contact.favorites c' = ContactModel.favorites body.
Proof.
  unfold routes_contacts.update_contact.
  destruct (repository_contacts.update now contact_id body user cs)
    as [[[stored|]|e] cs1] eqn:Hupd; cbn [routes_contacts.or_not_found];
    [|discriminate..].
  intros [= <- <-].
  apply update_Returns_inv in Hupd as (i & c & Hget & -> & Hstored & _).
  assert (Hcols : Contact.id stored = Contact.id c ∧
            Contact.user_id stored = Contact.user_id c ∧
            Contact.created_at stored = Contact.created_at c)
    by (by destruct Hstored as [->| ->]).
  destruct Hcols as (Hid & Hown & Hcreated).
  split_and!; try (by destruct Hstored as [->| ->]).
  - unfold routes_contacts.get_contact.
    assert (repository_contacts.get_contact_by_id contact_id user (<[i := stored]> cs)
              = Some (i, stored)) as ->; [|done].
    unfold repository_contacts.get_contact_by_id in *.
    apply list_find_Some in Hget as (Hi & [Hc1 Hc2] & Hleast).
    apply list_find_Some. split_and!.
    + apply list_lookup_insert_eq. by eapply lookup_lt_Some.
    + by rewrite Hown.
    + by rewrite Hid.
    + intros j d Hj Hlt. rewrite list_lookup_insert_ne in Hj by lia. eauto.
  - by rewrite length_insert.
  - exists c. unfold routes_contacts.get_contact. by rewrite Hget.
Qed.

(** Alice corrects the address and the phone of her mother. *)
Lemma update_then_get_contact_witness :
  ∃ c' cs',
    routes_contacts.update_contact 2000 contacts_scenario.mum_moved 1
      contacts_scenario.alice contacts_scenario.table = (Returns c', cs') ∧
    routes_contacts.get_contact 1 contacts_scenario.alice cs' = (Returns c', cs') ∧
    Contact.email c' = "mum@y.com" ∧
    Contact.user_id c' = Some 1%Z ∧
    Contact.updated_at c' = 2000%N.
Proof.
  eexists _, _. split; [vm_compute; reflexivity|].
  split; [|split_and!; reflexivity].
  apply (update_then_get_contact 2000 contacts_scenario.mum_moved 1
           contacts_scenario.alice contacts_scenario.table).
  vm_compute. reflexivity.
Defined.

(** X21. The keys of the contacts stay unique under [create_contact],
    [update_contact] and [remove_contact], provided the database gives an
    inserted row a key that is not in use. *)
Theorem contact_keys_stay_unique (alloc : list Contact.t → Z) (now : N)
    (body : ContactModel.t) (contact_id : Z) (user : User.t) (cs : list Contact.t) :
  alloc_fresh alloc → NoDup (Contact.id <$> cs) →
  NoDup (Contact.id <$> snd (routes_contacts.create_contact alloc body user cs)) ∧
  NoDup (Contact.id <$> snd (routes_contacts.update_contact now body contact_id user cs)) ∧
  NoDup (Contact.id <$> snd (routes_contacts.remove_contact contact_id user cs)).
Proof.
  intros Hfresh Hnd. split_and!.
  - unfold routes_contacts.create_contact.
    destruct (create_cases alloc body user cs)
      as [[_ ->]|(_ & contact & -> & Hid & _)]; [done|]. cbn [snd].
    rewrite fmap_app. apply NoDup_app. split_and!; [done| |apply NoDup_singleton].
    intros k Hk Hk'%list_elem_of_singleton. apply (Hfresh cs). congruence.
  - unfold routes_contacts.update_contact.
    destruct (repository_contacts.update now contact_id body user cs)
      as [[[stored|]|e] cs'] eqn:Hupd; cbn [routes_contacts.or_not_found snd].
    + apply update_Returns_inv in Hupd as (i & c & Hget & -> & Hstored & _).
      apply get_contact_by_id_Some in Hget as (Hi & _).
      rewrite list_fmap_insert, list_insert_id; [done|].
      rewrite list_lookup_fmap, Hi. by destruct Hstored as [->| ->].
    + by rewrite (update_other_outcomes _ _ _ _ _ _ _ Hupd).
    + by rewrite (update_other_outcomes _ _ _ _ _ _ _ Hupd).
  - unfold routes_contacts.remove_contact, repository_contacts.remove.
    destruct (repository_contacts.get_contact_by_id contact_id user cs)
      as [[i c]|] eqn:Hget; [|done].
    cbn [routes_contacts.or_not_found snd]. rewrite list_fmap_delete.
    eapply sublist_NoDup; [exact Hnd|apply sublist_delete].
Qed.

Lemma contact_keys_stay_unique_witness :
  NoDup (Contact.id <$>
           snd (routes_contacts.create_contact next_contact_id contacts_scenario.mum_moved
                  contacts_scenario.alice contacts_scenario.table)) ∧
  NoDup (Contact.id <$>
           snd (routes_contacts.update_contact 2000 contacts_scenario.mum_moved 1
                  contacts_scenario.alice contacts_scenario.table)) ∧
  NoDup (Contact.id <$>
           snd (routes_contacts.remove_contact 1 contacts_scenario.alice
                  contacts_scenario.table)).
Proof.
  apply contact_keys_stay_unique.
  - apply next_contact_id_fresh.
  - apply (bool_decide_unpack _). vm_compute. exact I.
Defined.

(** X22. The e-mail of a contact is unique over the whole table, not per
    owner: [create_contact] with an e-mail some row has, whoever owns that
    row, ends in the [IntegrityError] of the database and stores nothing;
    and e-mails that are pairwise different stay so under [create_contact],
    [update_contact] and [remove_contact]. *)
Theorem contact_emails_stay_unique (alloc : list Contact.t → Z) (now : N)
    (body : ContactModel.t) (contact_id : Z) (user : User.t) (cs : list Contact.t) :
  (∀ c, c ∈ cs → Contact.email c = ContactModel.email body →
     routes_contacts.create_contact alloc body user cs = (Raises IntegrityError, cs)) ∧
  (NoDup (Contact.email <$> cs) →
     NoDup (Contact.email <$> snd (routes_contacts.create_contact alloc body user cs)) ∧
     NoDup (Contact.email <$>
              snd (routes_contacts.update_contact now body contact_id user cs)) ∧
     NoDup (Contact.email <$> snd (routes_contacts.remove_contact contact_id user cs))).
Proof.
  split.
  - intros c Hc Hemail. unfold routes_contacts.create_contact.
    destruct (create_cases alloc body user cs) as [[_ ->]|[Hfree _]]; [done|].
    destruct Hfree. rewrite <- Hemail. by apply list_elem_of_fmap_2.
  - intros Hnd. split_and!.
    + unfold routes_contacts.create_contact.
      destruct (create_cases alloc body user cs)
        as [[_ ->]|(Hfree & contact & -> & _ & Hemail & _)]; [done|]. cbn [snd].
      rewrite fmap_app. apply NoDup_app. split_and!; [done| |apply NoDup_singleton].
      intros e He He'%list_elem_of_singleton. apply Hfree. congruence.
    + unfold routes_contacts.update_contact.
      destruct (repository_contacts.update now contact_id body user cs)
        as [[[stored|]|e] cs'] eqn:Hupd; cbn [routes_contacts.or_not_found snd].
      * apply update_Returns_inv in Hupd as (i & c & Hget & -> & _ & Hemail).
        apply get_contact_by_id_Some in Hget as (Hi & _).
        rewrite list_fmap_insert. destruct Hemail as [->|Hfree].
        -- rewrite list_insert_id; [done|]. by rewrite list_lookup_fmap, Hi.
        -- by apply NoDup_insert_fresh.
      * by rewrite (update_other_outcomes _ _ _ _ _ _ _ Hupd).
      * by rewrite (update_other_outcomes _ _ _ _ _ _ _ Hupd).
    + unfold routes_contacts.remove_contact, repository_contacts.remove.
      destruct (repository_contacts.get_contact_by_id contact_id user cs)
        as [[i c]|] eqn:Hget; [|done].
      cbn [routes_contacts.or_not_found snd]. rewrite list_fmap_delete.
      eapply sublist_NoDup; [exact Hnd|apply sublist_delete].
Qed.

(** Alice cannot add Carl: Bob has a contact with that e-mail. *)
Lemma contact_emails_stay_unique_witness :
  routes_contacts.create_contact next_contact_id contacts_scenario.carl
    contacts_scenario.alice contacts_scenario.table
    = (Raises IntegrityError, contacts_scenario.table) ∧
  NoDup (Contact.email <$>
           snd (routes_contacts.update_contact 2000 contacts_scenario.mum_moved 1
                  contacts_scenario.alice contacts_scenario.table)).
Proof.
  destruct (contact_emails_stay_unique next_contact_id 2000 contacts_scenario.carl 1
              contacts_scenario.alice contacts_scenario.table) as [Hrefuse _].
  destruct (contact_emails_stay_unique next_contact_id 2000 contacts_scenario.mum_moved 1
              contacts_scenario.alice contacts_scenario.table) as [_ Hkeep].
  split.
  - apply (Hrefuse (Contact.mk 2 "Carl" "Jones" "carl@x.com" (Some "+380980000001") 600
                      (Some "work") false 1001 1001 (Some 2%Z))).
    + vm_compute. repeat constructor.
    + reflexivity.
  - apply Hkeep. apply (bool_decide_unpack _). vm_compute. exact I.
Defined.
